(** * A shallow embedding of the per-species site model of batoms

    This development models [src/batom.py] (class [Batom]) and the
    deletion and repeat entry points of [src/batoms.py] (class [Batoms]).
    Python floats are modelled by exact rationals [Q]; the one place where
    the host (Blender) stores numbers in single precision, vertex
    coordinates and occupancy properties, is modelled by an explicit
    rounding function [round32].  Face angles, which go through [atan2],
    are modelled over the real numbers. *)

From Stdlib Require Import ZArith QArith Qround Qreduction Qabs List String Ascii Bool Lia.
From Stdlib Require Import Permutation Sorted.
From Stdlib Require Import Reals Lra Qreals.
Import ListNotations.

Local Open Scope Z_scope.

(** ** Python exceptions and a state/exception monad *)

Inductive exn : Type :=
| ValueError          (* raise ValueError(...) *)
| IndexError          (* index out of range on a list, array or bmesh seq *)
| TypeError           (* e.g. subscripting an int *)
| KeyError            (* bpy.data.objects[name] with no such object *)
| LinAlgError         (* np.linalg.inv of a singular matrix *)
| Exception_ (msg : string).

Inductive result (A : Type) : Type :=
| Ok (a : A)
| Err (e : exn).
Arguments Ok {A} a.
Arguments Err {A} e.

(** ** Numeric helpers *)

(** [2^e] as a rational, for any integer [e]. *)
Definition pow2Q (e : Z) : Q :=
  if 0 <=? e then inject_Z (2 ^ e) else 1 # Z.to_pos (2 ^ (- e)).

(** Round half to even to an integer (IEEE and Python [round]). *)
Definition round_half_even (q : Q) : Z :=
  let f := Qfloor q in
  let r := (q - inject_Z f)%Q in
  match Qcompare r (1 # 2) with
  | Lt => f
  | Gt => f + 1
  | Eq => if Z.even f then f else f + 1
  end.

(** Python's [round(x, 3)] for a float [x]: the exact value of [x] rounded
    to three decimals, ties to even. *)
Definition round3 (q : Q) : Q :=
  Qred (inject_Z (round_half_even (q * inject_Z 1000)) / inject_Z 1000).

(** floor(log2 |q|) for q <> 0. *)
Definition floor_log2 (q : Q) : Z :=
  let n := Z.abs (Qnum q) in
  let d := Zpos (Qden q) in
  let k := Z.log2 n - Z.log2 d in
  (* 2^k <= n/d ? *)
  if 0 <=? k then (if n <? d * 2 ^ k then k - 1 else k)
  else (if n * 2 ^ (- k) <? d then k - 1 else k).

(** The host stores vertex coordinates ([MeshVertex.co]) and float
    properties ([FloatProperty]) in IEEE single precision: a double written
    with [foreach_set] or a property assignment is rounded to the nearest
    single, ties to even.  Subnormals are handled; overflow (|x| > 3.4e38)
    is outside the modelled range. *)
Definition round32 (q0 : Q) : Q :=
  let q := Qred q0 in
  if Qeq_bool q 0 then 0%Q
  else
    let e := Z.max (floor_log2 q - 23) (-149) in
    let m := round_half_even (Qabs q * pow2Q (- e)) in
    let r := (inject_Z m * pow2Q e)%Q in
    Qred (if Qlt_le_dec q 0 then (- r)%Q else r).

(** ** Python dicts with string keys, as insertion-ordered association lists *)

Definition pydict (V : Type) := list (string * V).

(** [d[k] = v]: replaces in place when [k] is present, appends otherwise. *)
Fixpoint py_dict_set {V} (d : pydict V) (k : string) (v : V) : pydict V :=
  match d with
  | [] => [(k, v)]
  | (k', v') :: d' =>
      if String.eqb k k' then (k, v) :: d' else (k', v') :: py_dict_set d' k v
  end.

(** [sum(d.values())], left to right from 0. *)
Definition py_sum_values (d : pydict Q) : Q :=
  fold_left (fun acc kv => (acc + snd kv)%Q) d 0%Q.

(** ** [Batom.check_elements] (batom.py 290-302) *)

(** The [elements] argument: a symbol or a dict of occupancies. *)
Inductive elements_arg : Type :=
| EStr (s : string)
| EDict (d : pydict Q).

(** The vacancy filler's symbol. *)
Definition vacancy : string := "X".

Definition tol : Q := 1 # 1000000.

Definition check_elements (elements : elements_arg) : result (pydict Q) :=
  match elements with
  | EStr s => Ok [(s, 1%Q)]
  | EDict d =>
      let occu := py_sum_values d in
      if Qlt_le_dec occu (1 - tol) then Ok (py_dict_set d vacancy (1 - occu)%Q)
      else if Qlt_le_dec (1 + tol) occu then Err ValueError
      else Ok d
  end.

(** ** [Batom.get_elements] (batom.py 308-313) *)

(** The scene-side record of one element ([obj.batom.elements] item). *)
Record eledata := mk_eledata { ed_name : string; ed_occupancy : Q }.

(** [collection.add(); name = ele; occupancy = occ]: a float property, so
    stored in single precision. *)
Definition store_eledata (ele : string) (occ : Q) : eledata :=
  mk_eledata ele (round32 occ).

Definition get_elements (collection : list eledata) : pydict Q :=
  fold_left (fun acc ed => py_dict_set acc (ed_name ed) (round3 (ed_occupancy ed)))
    collection [].

(** ** [sorted(items, key=lambda x: -x[1])]: Python's sort is stable. *)

(** Insert [x] in front of the first item whose occupancy is not greater
    than that of [x]; items equal to [x] come after it, as [x] precedes
    them in the input (this is insertion sort from the right). *)
Fixpoint insert_desc (x : string * Q) (l : list (string * Q)) : list (string * Q) :=
  match l with
  | [] => [x]
  | y :: l' => if Qle_bool (snd y) (snd x) then x :: y :: l' else y :: insert_desc x l'
  end.

Fixpoint sort_desc (l : list (string * Q)) : list (string * Q) :=
  match l with
  | [] => []
  | x :: l' => insert_desc x (sort_desc l')
  end.

(** ** [Batom.main_element] (batom.py 332-339) *)

Definition main_element (collection : list eledata) : result string :=
  let sorted_ele := sort_desc (get_elements collection) in
  match sorted_ele with
  | [] => Err IndexError
  | (e0, _) :: rest =>
      if String.eqb e0 vacancy then
        match rest with
        | [] => Err IndexError
        | (e1, _) :: _ => Ok e1
        end
      else Ok e0
  end.

(** ** Face angles and [Batom.assign_materials] (batom.py 201-229) *)

(** [np.arctan2] on the reals (the sign of a zero [y] is taken as +0). *)
Definition atan2 (y x : R) : R :=
  if Rlt_dec 0 x then atan (y / x)
  else if Rlt_dec x 0 then
    (if Rle_dec 0 y then atan (y / x) + PI else atan (y / x) - PI)%R
  else if Rlt_dec 0 y then (PI / 2)%R
  else if Rlt_dec y 0 then (- (PI / 2))%R
  else 0%R.

Definition rvec3 : Type := (R * R * R)%type.

(** [xy = normals - np.dot(normals, [0, 0, 1])[:, None]*[0, 0, 1]]
    keeps the x and y components;
    [angles = (np.arctan2(xy[:, 1], xy[:, 0]) + np.pi)/np.pi/2]. *)
Definition face_angle (n : rvec3) : R :=
  let '(nx, ny, _) := n in ((atan2 ny nx + PI) / PI / 2)%R.

(** The instancer's mesh: per-face normals and material indices, and the
    material slots ([mesh.materials]), named by element. *)
Record mesh := mk_mesh {
  m_normals : list rvec3;
  m_material_index : list Z;
  m_materials : list string
}.

(** [index = np.where((angles > tos) & (angles < toe))[0];
     material_indexs[index] = i]. *)
Fixpoint set_in_wedge (i : Z) (tos toe : R) (angles : list R) (idx : list Z) : list Z :=
  match angles, idx with
  | a :: angles', j :: idx' =>
      (if Rlt_dec tos a then if Rlt_dec a toe then i else j else j)
        :: set_in_wedge i tos toe angles' idx'
  | _, _ => idx
  end.

(** [for i in range(1, nele): toe = tos + sorted_ele[i][1]; ...; tos = toe];
    [rest] holds [sorted_ele[i:]]. *)
Fixpoint wedge_loop (i : Z) (rest : list (string * Q)) (tos : R) (angles : list R)
    (idx : list Z) : list Z :=
  match rest with
  | [] => idx
  | (_, occ) :: rest' =>
      let toe := (tos + Q2R occ)%R in
      wedge_loop (i + 1) rest' toe angles (set_in_wedge i tos toe angles idx)
  end.

(** [elements] is [self.elements], i.e. the output of [get_elements].
    [mesh.materials.clear()] empties the slots and resets the material
    index of every face to 0 (the host's [BKE_id_material_clear]), so the
    indices read back by [foreach_get] are [npoly] zeros. *)
Definition assign_materials (elements : pydict Q) (m : mesh) : mesh :=
  let cleared := List.repeat 0%Z (List.length (m_normals m)) in
  let sorted_ele := sort_desc elements in
  let slots := map fst sorted_ele in
  let nele := List.length sorted_ele in
  if Nat.ltb 1 nele then
    (* material_indexs = np.zeros(npoly); foreach_get('material_index', ...) *)
    let material_indexs := cleared in
    let angles := map face_angle (m_normals m) in
    let new_idx := wedge_loop 1 (List.tl sorted_ele) 0%R angles material_indexs in
    mk_mesh (m_normals m) new_idx slots
  else mk_mesh (m_normals m) cleared slots.

(** ** Positions and the placement transform *)

Definition vec3 : Type := (Q * Q * Q)%type.

Definition vadd (a b : vec3) : vec3 :=
  let '(x, y, z) := a in let '(x', y', z') := b in ((x + x')%Q, (y + y')%Q, (z + z')%Q).
Definition vsub (a b : vec3) : vec3 :=
  let '(x, y, z) := a in let '(x', y', z') := b in ((x - x')%Q, (y - y')%Q, (z - z')%Q).
Definition vscale (k : Q) (a : vec3) : vec3 :=
  let '(x, y, z) := a in ((k * x)%Q, (k * y)%Q, (k * z)%Q).
Definition vdot (a b : vec3) : Q :=
  let '(x, y, z) := a in let '(x', y', z') := b in (x * x' + y * y' + z * z')%Q.

(** Componentwise [==] on vectors and lists of vectors (the float
    comparison of the model). *)
Definition veqb (a b : vec3) : bool :=
  let '(x, y, z) := a in let '(x', y', z') := b in
  Qeq_bool x x' && Qeq_bool y y' && Qeq_bool z z'.
Fixpoint veqb_list (l l' : list vec3) : bool :=
  match l, l' with
  | [], [] => true
  | a :: l, a' :: l' => veqb a a' && veqb_list l l'
  | _, _ => false
  end.

(** Writing a vector to a vertex stores it in single precision. *)
Definition round32v (a : vec3) : vec3 :=
  let '(x, y, z) := a in (round32 x, round32 y, round32 z).

(** [obj.matrix_world]: an affine 4x4 matrix, given by its rows
    [r0, r1, r2] of the linear part and its translation [t]. *)
Record affine := mk_affine { a_r0 : vec3; a_r1 : vec3; a_r2 : vec3; a_t : vec3 }.

Definition affine_id : affine :=
  mk_affine (1%Q, 0%Q, 0%Q) (0%Q, 1%Q, 0%Q) (0%Q, 0%Q, 1%Q) (0%Q, 0%Q, 0%Q).

Definition affine_apply (m : affine) (p : vec3) : vec3 :=
  (vdot (a_r0 m) p + fst (fst (a_t m)),
   vdot (a_r1 m) p + snd (fst (a_t m)),
   vdot (a_r2 m) p + snd (a_t m))%Q.

(** [np.linalg.inv] of an affine matrix: adjugate over determinant for the
    linear part, [-A^-1 t] for the translation. *)
Definition affine_inv (m : affine) : result affine :=
  let '(a, b, c) := a_r0 m in
  let '(d, e, f) := a_r1 m in
  let '(g, h, i) := a_r2 m in
  let det := (a * (e * i - f * h) - b * (d * i - f * g) + c * (d * h - e * g))%Q in
  if Qeq_bool det 0 then Err LinAlgError
  else
    let k := Qinv det in
    let r0 := vscale k ((e * i - f * h)%Q, (c * h - b * i)%Q, (b * f - c * e)%Q) in
    let r1 := vscale k ((f * g - d * i)%Q, (a * i - c * g)%Q, (c * d - a * f)%Q) in
    let r2 := vscale k ((d * h - e * g)%Q, (b * g - a * h)%Q, (a * e - b * d)%Q) in
    let t := a_t m in
    Ok (mk_affine r0 r1 r2 (- vdot r0 t, - vdot r1 t, - vdot r2 t)%Q).

(** Modelled from the spec: [batoms.tools.local2global] (not in src/),
    "global = transform(local), local = inverse-transform(global)";
    [reversed] applies the inverse of [matrix]. *)
Definition local2global (positions : list vec3) (matrix : affine) (reversed : bool)
    : result (list vec3) :=
  if reversed then
    match affine_inv matrix with
    | Ok mi => Ok (map (affine_apply mi) positions)
    | Err e => Err e
    end
  else Ok (map (affine_apply matrix) positions).

(** ** The scene: objects by name *)

(** The data of a Batom object: its mesh vertices (local frame, single
    precision), its placement, its [batom] property group and its shape
    keys (frames). *)
Record batom_obj := mk_batom_obj {
  bo_species : string;
  bo_label : string;
  bo_elements : list eledata;
  bo_verts : list vec3;
  bo_world : affine;
  bo_shape_keys : list (string * list vec3);
  (* the keyframes of each shape key's [value], by key name: (frame, value)
     pairs sorted by frame *)
  bo_key_anim : pydict (list (Z * Q))
}.

Inductive sobj : Type :=
| SBatom (b : batom_obj)
| SInstancer (m : mesh)
| SOther.

(** [bpy.data.objects] and [bpy.data.materials]. *)
Record scene := mk_scene {
  sc_objects : pydict sobj;
  sc_materials : list string
}.

(** The state/exception monad: an exception leaves the scene as it was
    when it was raised. *)
Definition M (A : Type) : Type := scene -> result A * scene.

Definition ret {A} (a : A) : M A := fun s => (Ok a, s).
Definition raise {A} (e : exn) : M A := fun s => (Err e, s).
Definition bind {A B} (m : M A) (k : A -> M B) : M B :=
  fun s => match m s with
           | (Ok a, s') => k a s'
           | (Err e, s') => (Err e, s')
           end.
Definition lift {A} (r : result A) : M A :=
  match r with Ok a => ret a | Err e => raise e end.
Definition get_scene : M scene := fun s => (Ok s, s).
Definition put_scene (s : scene) : M unit := fun _ => (Ok tt, s).

Notation "x <- m ;; k" := (bind m (fun x => k)) (at level 61, m at next level, right associativity).
Notation "m ;;; k" := (bind m (fun _ => k)) (at level 61, right associativity).

Fixpoint py_dict_get {V} (d : pydict V) (k : string) : option V :=
  match d with
  | [] => None
  | (k', v) :: d' => if String.eqb k k' then Some v else py_dict_get d' k
  end.

Fixpoint py_dict_del {V} (d : pydict V) (k : string) : pydict V :=
  match d with
  | [] => []
  | (k', v) :: d' => if String.eqb k k' then d' else (k', v) :: py_dict_del d' k
  end.

(** The Python wrapper holds only names; everything else lives in the scene. *)
Record batom := mk_batom { obj_name : string; instancer_name : string }.

(** [self.obj]: [bpy.data.objects[self.obj_name]]. *)
Definition get_obj (w : batom) : M batom_obj :=
  s <- get_scene ;;
  match py_dict_get (sc_objects s) (obj_name w) with
  | Some (SBatom b) => ret b
  | _ => raise KeyError
  end.

Definition put_obj (w : batom) (b : batom_obj) : M unit :=
  s <- get_scene ;;
  put_scene (mk_scene (py_dict_set (sc_objects s) (obj_name w) (SBatom b)) (sc_materials s)).

(** [Batom.get_positions] (batom.py 407-414). *)
Definition get_positions (w : batom) : M (list vec3) :=
  b <- get_obj w ;;
  lift (local2global (bo_verts b) (bo_world b) false).

(** [Batom.set_positions] (batom.py 416-430). *)
Definition set_positions (w : batom) (positions : list vec3) : M unit :=
  b <- get_obj w ;;
  let natom := List.length (bo_verts b) in
  if negb (Nat.eqb (List.length positions) natom) then raise ValueError
  else
    local <- lift (local2global positions (bo_world b) true) ;;
    put_obj w (mk_batom_obj (bo_species b) (bo_label b) (bo_elements b)
                 (map round32v local) (bo_world b) (bo_shape_keys b) (bo_key_anim b)).

(** ** Deletion (batom.py 606-640, batoms.py 913-948) *)

(** An item of the [index] argument: a Python int or bool. *)
Inductive pyval : Type :=
| VInt (z : Z)
| VBool (b : bool).

(** The [index] argument: an int, or a sequence (list or array). *)
Inductive index_arg : Type :=
| IInt (z : Z)
| ISeq (l : list pyval).

Definition pyval_truthy (v : pyval) : bool :=
  match v with VInt z => negb (z =? 0) | VBool b => b end.

(** A bool used as an index is the int 0 or 1. *)
Definition pyval_int (v : pyval) : Z :=
  match v with VInt z => z | VBool b => Z.b2z b end.

(** [np.where(index)[0]]: the positions of the truthy items. *)
Definition np_where (l : list pyval) : list Z :=
  map (fun p => Z.of_nat (fst p))
    (filter (fun p => pyval_truthy (snd p)) (combine (seq 0 (List.length l)) l)).

(** [bm.verts[i]]: negative indices count from the end; out of range
    raises [IndexError]. *)
Definition bm_index (n : nat) (i : Z) : result nat :=
  let j := if i <? 0 then i + Z.of_nat n else i in
  if (0 <=? j) && (j <? Z.of_nat n) then Ok (Z.to_nat j) else Err IndexError.

Fixpoint bm_indices (n : nat) (idx : list Z) : result (list nat) :=
  match idx with
  | [] => Ok []
  | i :: idx' =>
      match bm_index n i, bm_indices n idx' with
      | Ok j, Ok js => Ok (j :: js)
      | Err e, _ => Err e
      | _, Err e => Err e
      end
  end.

(** [bmesh.ops.delete(bm, geom=verts_select, context='VERTS')]: the
    remaining vertices keep their order, in the mesh and in every shape key
    layer. *)
Definition drop_indices {A} (sel : list nat) (l : list A) : list A :=
  map snd (filter (fun p => negb (existsb (Nat.eqb (fst p)) sel))
             (combine (seq 0 (List.length l)) l)).

(** [bpy.data.objects.remove(obj)]. *)
Definition remove_object (name : string) : M unit :=
  s <- get_scene ;;
  match py_dict_get (sc_objects s) name with
  | Some _ => put_scene (mk_scene (py_dict_del (sc_objects s) name) (sc_materials s))
  | None => raise TypeError   (* remove(None) *)
  end.

(** [Batom.delete_verts]; [Batoms.delete_verts] is the same code. *)
Definition delete_verts (w : batom) (index : list Z) : M unit :=
  b <- get_obj w ;;
  sel <- lift (bm_indices (List.length (bo_verts b)) index) ;;
  let verts := drop_indices sel (bo_verts b) in
  match verts with
  | [] => remove_object (instancer_name w) ;;; remove_object (obj_name w)
  | _ =>
      put_obj w (mk_batom_obj (bo_species b) (bo_label b) (bo_elements b) verts
                   (bo_world b)
                   (map (fun sk => (fst sk, drop_indices sel (snd sk))) (bo_shape_keys b))
                   (bo_key_anim b))
  end.

(** The front end shared, line for line, by [Batom.delete] and
    [Batoms.delete]:
    [if isinstance(index[0], (bool, np.bool_)): index = np.where(index)[0]];
    [if isinstance(index, int): index = [index]]. *)
Definition delete_with (dv : list Z -> M unit) (index : index_arg) : M unit :=
  match index with
  | IInt _ => raise TypeError            (* index[0] on an int *)
  | ISeq [] => raise IndexError          (* index[0] on an empty sequence *)
  | ISeq ((VBool _ :: _) as l) => dv (np_where l)
  | ISeq l => dv (map pyval_int l)
  end.

Definition Batom_delete (w : batom) (index : index_arg) : M unit :=
  delete_with (delete_verts w) index.

(** [Batoms.delete] (batoms.py 931-948): the same front end over
    [Batoms.delete_verts] (batoms.py 913-929), whose emptying branch refers
    to [self.instancer], not defined in batoms.py; it is a parameter here. *)
Definition Batoms_delete (dv : list Z -> M unit) (index : index_arg) : M unit :=
  delete_with dv index.

(** The default argument [index = []]. *)
Definition delete_default : index_arg := ISeq [].

(** ** Frames (shape keys) *)

(** [str(i)] for a natural number. *)
Fixpoint digits_of_nat (fuel n : nat) (acc : string) : string :=
  match fuel with
  | O => acc
  | S fuel' =>
      let d := String (Ascii.ascii_of_nat (48 + Nat.modulo n 10)) acc in
      if Nat.ltb n 10 then d else digits_of_nat fuel' (Nat.div n 10) d
  end.
Definition string_of_nat (n : nat) : string := digits_of_nat (S n) n EmptyString.

(** [Batom.get_frames] (batom.py 459-476): every key block, to global. *)
Definition get_frames (w : batom) : M (list (list vec3)) :=
  b <- get_obj w ;;
  lift (fold_right (fun sk acc =>
          match local2global (snd sk) (bo_world b) false, acc with
          | Ok g, Ok gs => Ok (g :: gs)
          | Err e, _ => Err e
          | _, Err e => Err e
          end) (Ok []) (bo_shape_keys b)).

(** [obj.shape_key_add(name=...)]: a new key holding the current vertex
    coordinates (from the mix), appended. *)
Definition shape_key_add (b : batom_obj) (name : string) : batom_obj :=
  mk_batom_obj (bo_species b) (bo_label b) (bo_elements b) (bo_verts b) (bo_world b)
    (bo_shape_keys b ++ [(name, bo_verts b)]) (bo_key_anim b).

Definition has_key (b : batom_obj) (name : string) : bool :=
  existsb (fun sk => String.eqb (fst sk) name) (bo_shape_keys b).

(** [sk.data.foreach_set('co', positions)]: shape-key coordinates are
    stored in single precision. *)
Definition set_key_data (b : batom_obj) (name : string) (data : list vec3) : batom_obj :=
  mk_batom_obj (bo_species b) (bo_label b) (bo_elements b) (bo_verts b) (bo_world b)
    (map (fun sk => if String.eqb (fst sk) name then (name, map round32v data) else sk)
       (bo_shape_keys b))
    (bo_key_anim b).

(** [fcurve.keyframe_points.insert(frame, value)]: the keyframes are kept
    sorted by frame, and inserting at a frame that already has one replaces
    its value. *)
Fixpoint kf_insert (f : Z) (v : Q) (l : list (Z * Q)) : list (Z * Q) :=
  match l with
  | [] => [(f, v)]
  | (f', v') :: l' =>
      if f =? f' then (f, v) :: l'
      else if f <? f' then (f, v) :: l
      else (f', v') :: kf_insert f v l'
  end.

(** The keyframe points of the [value] F-curve of shape key [name]
    (none when the key was never keyed). *)
Definition key_curve (b : batom_obj) (name : string) : list (Z * Q) :=
  match py_dict_get (bo_key_anim b) name with Some l => l | None => [] end.


(** Modelled from the spec ([batoms.butils], not in src/):
    [add_keyframe_to_shape_key(sk, 'value', values, frames)] keys the
    key's [value] to [values[k]] at [frames[k]], for each [k] in order. *)
Definition add_keyframe_to_shape_key (b : batom_obj) (name : string) (values : list Q)
    (frames : list Z) : batom_obj :=
  let cur := key_curve b name in
  let l := fold_left (fun acc vf => kf_insert (snd vf) (fst vf) acc) (combine values frames) cur in
  mk_batom_obj (bo_species b) (bo_label b) (bo_elements b) (bo_verts b) (bo_world b)
    (bo_shape_keys b) (py_dict_set (bo_key_anim b) name l).

(** The loop [for i in range(1, nframe)] of [Batom.set_frames], over the
    indices [is]: it returns the object as the loop leaves it, and the
    exception that stopped it, if any.  What was written before the
    exception stays written. *)
Fixpoint set_frames_loop (frames : list (list vec3)) (nframe nvert : nat) (frame_start : Z)
    (is : list nat) (b : batom_obj) : batom_obj * option exn :=
  match is with
  | [] => (b, None)
  | i :: is' =>
      let name := string_of_nat i in
      (* sk = key_blocks.get(str(i)); if sk is None: sk = obj.shape_key_add(name=str(i)) *)
      let b := if has_key b name then b else shape_key_add b name in
      let fr := nth i frames [] in
      (* positions = frames[i].reshape((nvert*3, 1)) *)
      if negb (Nat.eqb (List.length fr) nvert) then (b, Some ValueError)
      else
        let b := set_key_data b name fr in
        let t := (frame_start + Z.of_nat i)%Z in
        let b := if negb (Nat.eqb i (nframe - 1))
                 then add_keyframe_to_shape_key b name [0%Q; 1%Q; 0%Q] [(t - 1)%Z; t; (t + 1)%Z]
                 else add_keyframe_to_shape_key b name [0%Q; 1%Q] [(t - 1)%Z; t] in
        set_frames_loop frames nframe nvert frame_start is' b
  end.

(** [Batom.set_frames] (batom.py 659-704). *)
Definition set_frames (w : batom) (frames : list (list vec3)) (frame_start : Z)
    (only_basis : bool) : M unit :=
  match frames with
  | [] => ret tt
  | _ =>
    b <- get_obj w ;;
    let base_name := ("Basis_" ++ bo_species b)%string in
    let b := if has_key b base_name then b else shape_key_add b base_name in
    if only_basis then put_obj w b
    else
      let nvert := List.length (bo_verts b) in
      let nframe := List.length frames in
      let '(b', err) := set_frames_loop frames nframe nvert frame_start (seq 1 (nframe - 1)) b in
      put_obj w b' ;;;
      match err with None => ret tt | Some e => raise e end
  end.

(** ** [Batom.repeat] (batom.py 765-805) *)

(** The multiplicity argument: an int or a triple. *)
Inductive mult_arg : Type :=
| MInt (k : Z)
| M3 (m : Z * Z * Z).

Definition cell3 : Type := (vec3 * vec3 * vec3)%type.

(** [vec.any()]. *)
Definition vec_any (v : vec3) : bool :=
  let '(x, y, z) := v in
  negb (Qeq_bool x 0) || negb (Qeq_bool y 0) || negb (Qeq_bool z 0).

(** [for x, vec in zip(m, cell): if x != 1 and not vec.any(): raise];
    [true] when no axis raises. *)
Definition repeat_check (m : Z * Z * Z) (cell : cell3) : bool :=
  let '(m0, m1, m2) := m in
  let '(c0, c1, c2) := cell in
  forallb (fun p => negb (negb (fst p =? 1) && negb (vec_any (snd p))))
    [(m0, c0); (m1, c1); (m2, c2)].

(** [np.dot((m0, m1, m2), cell)]. *)
Definition offset (t : Z * Z * Z) (cell : cell3) : vec3 :=
  let '(a, b, c) := t in
  let '(c0, c1, c2) := cell in
  vadd (vadd (vscale (inject_Z a) c0) (vscale (inject_Z b) c1)) (vscale (inject_Z c) c2).

(** [range(k)]. *)
Definition pyrange (k : Z) : list Z := map Z.of_nat (seq 0 (Z.to_nat k)).

(** The three nested loops, in their order. *)
Definition triples (m : Z * Z * Z) : list (Z * Z * Z) :=
  let '(k0, k1, k2) := m in
  flat_map (fun m0 => flat_map (fun m1 => map (fun m2 => (m0, m1, m2)) (pyrange k2))
                        (pyrange k1)) (pyrange k0).

(** [positions[i0:i0+n] += v]. *)
Definition add_block (l : list vec3) (i0 n : nat) (v : vec3) : list vec3 :=
  map (fun p => if (Nat.leb i0 (fst p) && Nat.ltb (fst p) (i0 + n))%bool
                then vadd (snd p) v else snd p)
    (combine (seq 0 (List.length l)) l).

(** [np.tile(positions, (M, 1))] followed by the loops. *)
Definition repeat_positions (positions : list vec3) (m : Z * Z * Z) (cell : cell3)
    : result (list vec3) :=
  let '(k0, k1, k2) := m in
  let big := k0 * k1 * k2 in
  if big <? 0 then Err ValueError   (* negative dimensions *)
  else
    let n := List.length positions in
    let tiled := List.concat (List.repeat positions (Z.to_nat big)) in
    Ok (fst (fold_left (fun acc t => (add_block (fst acc) (snd acc) n (offset t cell),
                                      (snd acc + n)%nat))
               (triples m) (tiled, 0%nat))).

(** Modelled from the spec: [BaseObject.location] (batoms/base.py, not in
    src/), the object's origin in global coordinates; for an object without
    parent, the translation of [matrix_world]. *)
Definition location (b : batom_obj) : vec3 := a_t (bo_world b).

(** [Batom.add_vertices] (batom.py 869-881): [positions - self.location],
    each one a new bmesh vertex, appended; a new vertex takes its
    coordinates in every shape-key layer as well. *)
Definition add_vertices (w : batom) (positions : list vec3) : M unit :=
  b <- get_obj w ;;
  let nv := map (fun p => round32v (vsub p (location b))) positions in
  put_obj w (mk_batom_obj (bo_species b) (bo_label b) (bo_elements b)
               (bo_verts b ++ nv) (bo_world b)
               (map (fun sk => (fst sk, snd sk ++ nv)) (bo_shape_keys b)) (bo_key_anim b)).

Fixpoint all_ok {A} (l : list (result A)) : result (list A) :=
  match l with
  | [] => Ok []
  | Ok a :: l' => match all_ok l' with Ok as_ => Ok (a :: as_) | Err e => Err e end
  | Err e :: _ => Err e
  end.

Definition Batom_repeat (w : batom) (m : mult_arg) (cell : cell3) : M unit :=
  let m := match m with MInt k => (k, k, k) | M3 t => t end in
  if negb (repeat_check m cell) then raise ValueError
  else
    b <- get_obj w ;;
    let n := List.length (bo_verts b) in
    frames <- get_frames w ;;
    positions <- get_positions w ;;
    positions <- lift (repeat_positions positions m cell) ;;
    add_vertices w (skipn n positions) ;;;
    b <- get_obj w ;;
    frames_new <-
      (if Nat.ltb 1 (List.length (bo_shape_keys b))
       then lift (all_ok (map (fun f => repeat_positions f m cell) frames))
       else ret []) ;;
    set_frames w frames_new 0 false.

(** ** Defining a species: [Batom.__init__] (batom.py 60-118) and
    [Batom.set_elements] (batom.py 319-330) *)

(** The [positions] argument: an [(n, 3)] array or an [(f, n, 3)] array of
    frames.  An empty list has shape [(0,)] and is rejected; arrays with an
    empty inner dimension are outside the model. *)
Inductive positions_arg : Type :=
| P2 (l : list vec3)
| P3 (f : list (list vec3)).

(** [species.split('_')[0]]. *)
Fixpoint split_prefix (s : string) : string :=
  match s with
  | EmptyString => EmptyString
  | String c s' => if Ascii.eqb c "_"%char then EmptyString else String c (split_prefix s')
  end.

(** Python truthiness of the [elements] argument ([None], [""], [{}] are false). *)
Definition elements_truthy (e : option elements_arg) : bool :=
  match e with
  | None | Some (EStr EmptyString) | Some (EDict []) => false
  | _ => true
  end.

(** Modelled from the spec: [BaseObject.__init__] (batoms/base.py, not in
    src/) records the object names on the Python wrapper; the scene
    (the registry of species objects) is only changed by the operations the
    spec lists, so this step leaves it as it is. *)
Definition BaseObject_init (oname bname : string) : M unit := ret tt.

(** Modelled from the spec: [get_default_species_data] (batoms/tools.py,
    not in src/) returns a base colour per element of the species, looked up
    in the colour policy; only its keys, the elements, are used below. *)
Definition species_data_colors (elements : pydict Q) : list string := map fst elements.

Definition material_name (label species ele : string) : string :=
  (label ++ "_material_atom_" ++ species ++ "_" ++ ele)%string.

(** [Batom.build_object] (batom.py 139-159). *)
Definition build_object (w : batom) (species label : string) (elements : pydict Q)
    (positions : list vec3) (loc : vec3) : M unit :=
  s <- get_scene ;;
  match py_dict_get (sc_objects s) (obj_name w) with
  | None =>
      let b := mk_batom_obj species label
                 (map (fun kv => store_eledata (fst kv) (snd kv)) elements)
                 (map round32v positions)
                 (mk_affine (1%Q, 0%Q, 0%Q) (0%Q, 1%Q, 0%Q) (0%Q, 0%Q, 1%Q) (round32v loc))
                 [] [] in
      put_obj w b
  | Some (SBatom _) => ret tt
  | Some _ => raise (Exception_ "name already in use and is not Batom object")
  end.

(** Python's [s.replace(old, new)]: every non-overlapping occurrence of
    [old], left to right; an empty [old] matches before every character
    and at the end. *)
Fixpoint replace_from (old new : string) (skip : nat) (s : string) : string :=
  match s with
  | EmptyString => EmptyString
  | String c s' =>
      match skip with
      | S k => replace_from old new k s'
      | O => if String.prefix old s then (new ++ replace_from old new (String.length old - 1) s')%string
             else String c (replace_from old new 0 s')
      end
  end.

Fixpoint replace_empty (new s : string) : string :=
  match s with
  | EmptyString => new
  | String c s' => (new ++ String c (replace_empty new s'))%string
  end.

Definition py_str_replace (s old new : string) : string :=
  match old with
  | EmptyString => replace_empty new s
  | _ => replace_from old new 0 s
  end.

(** ["%.3d" % k]. *)
Definition pad3 (k : nat) : string :=
  let s := string_of_nat k in
  match String.length s with
  | 1%nat => ("00" ++ s)%string
  | 2%nat => ("0" ++ s)%string
  | _ => s
  end.

Fixpoint unique_from (names : list string) (base : string) (k fuel : nat) : string :=
  let c := (base ++ "." ++ pad3 k)%string in
  match fuel with
  | O => c
  | S f => if existsb (String.eqb c) names then unique_from names base (S k) f else c
  end.

(** The host's naming of a data block: a name already taken by another
    material gets the first free suffix [.001], [.002], ... (the rule for a
    name without a numeric suffix of its own). *)
Definition unique_name (names : list string) (nm : string) : string :=
  if existsb (String.eqb nm) names then unique_from names nm 1 (List.length names) else nm.

(** [for name, mat in materials.items(): mat1 = mat.copy();
     label = name.split('_')[0]; mat1.name = name.replace(label, self.label)]:
    each value is a material of the scene (by name) or [None]. *)
Fixpoint copy_materials (label : string) (ms : pydict (option string)) : M unit :=
  match ms with
  | [] => ret tt
  | (name, mat) :: ms' =>
      match mat with
      | None => raise (Exception_ "AttributeError: 'NoneType' object has no attribute 'copy'")
      | Some _ =>
          s <- get_scene ;;
          let target := py_str_replace name (split_prefix name) label in
          put_scene (mk_scene (sc_objects s)
                       (sc_materials s ++ [unique_name (sc_materials s) target])) ;;;
          copy_materials label ms'
      end
  end.

(** [Batom.build_material] (batom.py 120-137): the given materials are
    copied and renamed, then one material per element is created when
    absent. *)
Definition build_material (label species : string) (colors : list string)
    (materials : option (pydict (option string))) : M unit :=
  match materials with None => ret tt | Some ms => copy_materials label ms end ;;;
  s <- get_scene ;;
  let mats := fold_left (fun acc ele =>
                let name := material_name label species ele in
                if existsb (String.eqb name) acc then acc else acc ++ [name])
                colors (sc_materials s) in
  put_scene (mk_scene (sc_objects s) mats).

(** [Batom.build_instancer] (batom.py 161-199): a fresh primitive mesh
    [prim] from the host's [primitive_*_add], materials assigned. *)
Definition build_instancer (w : batom) (prim : mesh) : M unit :=
  s <- get_scene ;;
  let objs := match py_dict_get (sc_objects s) (instancer_name w) with
              | Some _ => py_dict_del (sc_objects s) (instancer_name w)
              | None => sc_objects s
              end in
  put_scene (mk_scene objs (sc_materials s)) ;;;
  b <- get_obj w ;;
  s <- get_scene ;;
  let m := assign_materials (get_elements (bo_elements b)) prim in
  put_scene (mk_scene (py_dict_set (sc_objects s) (instancer_name w) (SInstancer m))
               (sc_materials s)).

(** [Batom(species, positions, location, elements, label, ...)]. *)
Definition Batom_init (species : string) (positions : positions_arg) (loc : vec3)
    (elements : option elements_arg) (label : string)
    (materials : option (pydict (option string))) (prim : mesh) : M batom :=
  if String.eqb species "" then
    (* self.from_batom(label) *)
    s <- get_scene ;;
    match py_dict_get (sc_objects s) label with
    | Some (SBatom b) =>
        ret (mk_batom label (label ++ "_instancer_atom_" ++ bo_species b)%string)
    | Some _ => raise (Exception_ "is not Batom object")
    | None => raise (Exception_ "is not a object")
    end
  else
    let w := mk_batom (label ++ "_atom_" ++ species)%string
                      (label ++ "_instancer_atom_" ++ species)%string in
    BaseObject_init (obj_name w) "batom" ;;;
    frames_pos <- (match positions with
                   | P2 [] | P3 [] => raise (Exception_ "Shape of positions is wrong!")
                   | P2 l => ret ([l], l)
                   | P3 ((f0 :: _) as f) => ret (f, f0)
                   end) ;;
    let elements := if elements_truthy elements then elements
                    else Some (EStr (split_prefix species)) in
    elements <- lift (match elements with
                      | Some e => check_elements e
                      | None => Err TypeError
                      end) ;;
    build_object w species label elements (snd frames_pos) loc ;;;
    build_material label species (species_data_colors elements) materials ;;;
    build_instancer w prim ;;;
    set_frames w (fst frames_pos) 0 true ;;;
    ret w.

(** [Batom.set_elements]. *)
Definition set_elements (w : batom) (elements : elements_arg) : M unit :=
  elements <- lift (check_elements elements) ;;
  b <- get_obj w ;;
  put_obj w (mk_batom_obj (bo_species b) (bo_label b)
               (map (fun kv => store_eledata (fst kv) (snd kv)) elements)
               (bo_verts b) (bo_world b) (bo_shape_keys b) (bo_key_anim b)) ;;;
  build_material (bo_label b) (bo_species b) (species_data_colors elements) None ;;;
  b <- get_obj w ;;
  s <- get_scene ;;
  match py_dict_get (sc_objects s) (instancer_name w) with
  | Some (SInstancer m) =>
      put_scene (mk_scene (py_dict_set (sc_objects s) (instancer_name w)
                             (SInstancer (assign_materials (get_elements (bo_elements b)) m)))
                   (sc_materials s))
  | _ => raise (Exception_ "AttributeError: 'NoneType' object has no attribute 'data'")
  end.

(** Positions the constructor accepts: a non-empty [(n, 3)] array or a
    non-empty stack of frames. *)
Definition positions_wf (p : positions_arg) : Prop :=
  match p with P2 l => l <> [] | P3 f => f <> [] end.

(** The items of [get_elements] other than the vacancy filler. *)
Definition is_not_vacancy (kv : string * Q) : bool := negb (String.eqb (fst kv) vacancy).

(** ** Per-face view of the wedge loop *)

(** Pointwise update of [bs] along [as_]; the tail of [bs] beyond [as_] is
    kept, as [set_in_wedge] does. *)
Fixpoint zipmap {A B} (f : A -> B -> B) (as_ : list A) (bs : list B) : list B :=
  match as_, bs with
  | a :: as', b :: bs' => f a b :: zipmap f as' bs'
  | _, _ => bs
  end.

(** What [wedge_loop] does to one face of angle [a] and index [j]. *)
Fixpoint wedge_face (i : Z) (rest : list (string * Q)) (tos a : R) (j : Z) : Z :=
  match rest with
  | [] => j
  | (_, occ) :: rest' =>
      let toe := (tos + Q2R occ)%R in
      wedge_face (i + 1) rest' toe a
        (if Rlt_dec tos a then if Rlt_dec a toe then i else j else j)
  end.

(** The last wedge that claims the angle [a], if any. *)
Fixpoint wedge_hit (i : Z) (rest : list (string * Q)) (tos a : R) : option Z :=
  match rest with
  | [] => None
  | (_, occ) :: rest' =>
      let toe := (tos + Q2R occ)%R in
      match wedge_hit (i + 1) rest' toe a with
      | Some v => Some v
      | None => if Rlt_dec tos a then if Rlt_dec a toe then Some i else None else None
      end
  end.

(** The sum of the first [t] occupancies of [rest]: wedge [t] of [rest]
    is the open interval [(wedge_start rest t, wedge_start rest (S t))]. *)
Fixpoint wedge_start (rest : list (string * Q)) (t : nat) {struct t} : R :=
  match t, rest with
  | O, _ => 0%R
  | S t', (_, occ) :: rest' => (Q2R occ + wedge_start rest' t')%R
  | S _, [] => 0%R
  end.

(** ** Concrete inputs used below *)

Definition scene0 : scene := mk_scene [] [].
Definition vzero : vec3 := (0%Q, 0%Q, 0%Q).
Definition prim_empty : mesh := mk_mesh [] [] [].
Definition cell_id : cell3 := ((1%Q, 0%Q, 0%Q), (0%Q, 1%Q, 0%Q), (0%Q, 0%Q, 1%Q)).
(** A cell whose first lattice vector is zero. *)
Definition cell_x0 : cell3 := ((0%Q, 0%Q, 0%Q), (0%Q, 1%Q, 0%Q), (0%Q, 0%Q, 1%Q)).

(** [Batom('C', [[0, 0, 0], [0.5, 0, 0]])] in an empty scene. *)
Definition w_C : batom := mk_batom "batoms_atom_C" "batoms_instancer_atom_C".
Definition scene_C2 : scene :=
  snd (Batom_init "C" (P2 [vzero; ((1 # 2)%Q, 0%Q, 0%Q)]) vzero None "batoms" None prim_empty scene0).

(** Three sites A, B, C. *)
Definition site_A : vec3 := (1%Q, 0%Q, 0%Q).
Definition site_B : vec3 := (2%Q, 0%Q, 0%Q).
Definition site_C : vec3 := (3%Q, 0%Q, 0%Q).
(** [Batom('AB', [[0, 0, 0]], elements={'A': 1/3, 'B': 1/3})], and the
    table its [self.elements] reads. *)
Definition w_AB : batom := mk_batom "batoms_atom_AB" "batoms_instancer_atom_AB".
Definition scene_AB : scene :=
  snd (Batom_init "AB" (P2 [vzero]) vzero (Some (EDict [("A"%string, 1 # 3); ("B"%string, 1 # 3)]))
         "batoms" None prim_empty scene0).
Definition d_AB_read : pydict Q :=
  [("A"%string, 333 # 1000); ("B"%string, 333 # 1000); ("X"%string, 333 # 1000)].

Definition scene_ABC : scene :=
  snd (Batom_init "C" (P2 [site_A; site_B; site_C]) vzero None "batoms" None prim_empty scene0).

(** The double nearest to 0.1. *)
Definition dbl_0_1 : Q := 3602879701896397 # 36028797018963968.

(** [Batom('A', ..., elements={'Al': 0.40625, 'Si': 0.406494140625})]. *)
Definition w_A : batom := mk_batom "batoms_atom_A" "batoms_instancer_atom_A".
Definition elems_AlSi : pydict Q := [("Al"%string, 13 # 32); ("Si"%string, 1665 # 4096)].
Definition scene_AlSi : scene :=
  snd (Batom_init "A" (P2 [vzero]) vzero (Some (EDict elems_AlSi)) "batoms" None prim_empty scene0).

(** An over-occupied dict. *)
Definition d_FeNi : pydict Q := [("Fe"%string, 6 # 10); ("Ni"%string, 5 # 10)].

(** ** Shape-key layers aligned with the vertices *)

(** Every shape-key layer of a Batom object holds one position per vertex. *)
Definition keys_aligned (b : batom_obj) : Prop :=
  Forall (fun sk => List.length (snd sk) = List.length (bo_verts b)) (bo_shape_keys b).

Definition obj_aligned (o : sobj) : Prop :=
  match o with SBatom b => keys_aligned b | _ => True end.

(** ... for every Batom object of the scene, each entry of the dict. *)
Definition scene_aligned (st : scene) : Prop :=
  Forall (fun kv => obj_aligned (snd kv)) (sc_objects st).

(** An operation keeps the alignment, whether it returns or raises. *)
Definition keeps_aligned {A} (m : M A) : Prop :=
  forall st, scene_aligned st -> scene_aligned (snd (m st)).

(** ** Reading a decimal numeral back *)


(** * Properties *)

(** ** Helper lemmas *)

Lemma py_dict_get_set_eq {V} (d : pydict V) k v :
  py_dict_get (py_dict_set d k v) k = Some v.
Proof.
  induction d as [|[k' v'] d IH]; simpl.
  - now rewrite String.eqb_refl.
  - destruct (String.eqb k k') eqn:E; simpl.
    + now rewrite String.eqb_refl.
    + now rewrite E.
Qed.

Lemma py_dict_get_set_neq {V} (d : pydict V) k k' v :
  k <> k' -> py_dict_get (py_dict_set d k' v) k = py_dict_get d k.
Proof.
  intros Hk. induction d as [|[k0 v0] d IH]; cbn [py_dict_set py_dict_get].
  - destruct (String.eqb_spec k k'); [contradiction|reflexivity].
  - destruct (String.eqb_spec k' k0) as [<-|_]; cbn [py_dict_get].
    + destruct (String.eqb_spec k k'); [contradiction|reflexivity].
    + now rewrite IH.
Qed.

Lemma py_dict_set_absent {V} (d : pydict V) k v :
  ~ In k (map fst d) -> py_dict_set d k v = d ++ [(k, v)].
Proof.
  induction d as [|[k' v'] d IH]; simpl; intros Hn; [reflexivity|].
  destruct (String.eqb k k') eqn:E.
  - apply String.eqb_eq in E. subst. tauto.
  - rewrite IH; tauto.
Qed.

Lemma check_elements_over (d : pydict Q) :
  (1 + tol < py_sum_values d)%Q -> check_elements (EDict d) = Err ValueError.
Proof.
  intros H. unfold check_elements.
  destruct (Qlt_le_dec (py_sum_values d) (1 - tol)) as [H1|H1].
  - exfalso. unfold tol in *. apply (Qlt_irrefl (py_sum_values d)).
    apply Qlt_trans with (1 - (1 # 1000000))%Q; [exact H1|].
    apply Qlt_trans with (1 + (1 # 1000000))%Q; [reflexivity|exact H].
  - destruct (Qlt_le_dec (1 + tol) (py_sum_values d)) as [H2|H2]; [reflexivity|].
    exfalso. apply (Qlt_not_le _ _ H H2).
Qed.

Lemma py_sum_values_nil : py_sum_values [] = 0%Q.
Proof. reflexivity. Qed.

(** ** C10: [delete] needs a non-empty index sequence *)

(** C10: [Batom.delete] and [Batoms.delete] read [index[0]] before anything
    else, so [delete([])], and [delete()] with its default [[]], raise an
    [IndexError] (leaving the scene as it was) instead of being a no-op. *)
Theorem delete_empty_index_raises :
  forall (w : batom) (dv : list Z -> M unit) (st : scene),
    Batom_delete w (ISeq []) st = (Err IndexError, st) /\
    Batom_delete w delete_default st = (Err IndexError, st) /\
    Batoms_delete dv (ISeq []) st = (Err IndexError, st) /\
    Batoms_delete dv delete_default st = (Err IndexError, st).
Proof. intros w dv st. repeat split. Qed.

(** ** C2: over-occupancy is rejected before anything is registered *)

(** C2: when the occupancies sum to more than [1 + 1e-6], [check_elements]
    raises [ValueError]; constructing a Batom with that dict (with a
    species and well-formed positions) and [set_elements] with it both
    raise [ValueError] and return the scene unchanged. *)
Theorem over_occupancy_leaves_scene (d : pydict Q)
    (Hover : (1 + tol < py_sum_values d)%Q) :
  check_elements (EDict d) = Err ValueError /\
  (forall species positions loc label materials prim st,
     species <> ""%string -> positions_wf positions ->
     Batom_init species positions loc (Some (EDict d)) label materials prim st = (Err ValueError, st)) /\
  (forall w st, set_elements w (EDict d) st = (Err ValueError, st)).
Proof.
  pose proof (check_elements_over d Hover) as Hc.
  split; [exact Hc|split].
  - intros species positions loc label materials prim st Hsp Hwf.
    destruct d as [|kv d'].
    + exfalso. rewrite py_sum_values_nil in Hover. discriminate Hover.
    + unfold Batom_init.
      destruct (String.eqb species "") eqn:Es.
      { apply String.eqb_eq in Es. contradiction. }
      destruct positions as [[|p0 l]|[|f0 f]]; simpl in Hwf; try contradiction;
        cbn -[check_elements]; rewrite Hc; reflexivity.
  - intros w st. unfold set_elements, bind, lift. rewrite Hc. reflexivity.
Qed.

(** ** C3: the vacancy filler *)

Lemma py_sum_values_acc (d : pydict Q) (a : Q) :
  (fold_left (fun acc kv => (acc + snd kv)%Q) d a == a + py_sum_values d)%Q.
Proof.
  unfold py_sum_values. revert a; induction d as [|[k v] d IH]; intros a; cbn [fold_left snd].
  - ring.
  - rewrite (IH (a + v)%Q), (IH (0 + v)%Q). ring.
Qed.

(** Overwriting the value of a key that is present once replaces its
    share of the sum. *)
Lemma py_sum_values_set (d : pydict Q) (k : string) (v x0 : Q) :
  NoDup (map fst d) -> py_dict_get d k = Some x0 ->
  (py_sum_values (py_dict_set d k v) == py_sum_values d - x0 + v)%Q.
Proof.
  induction d as [|[k' v'] d IH]; cbn [py_dict_get py_dict_set map fst]; intros Hnd Hg;
    [discriminate|].
  apply NoDup_cons_iff in Hnd as [Hni Hnd].
  destruct (String.eqb_spec k k') as [->|Hk].
  - injection Hg as ->. unfold py_sum_values at 1 2. cbn [fold_left snd].
    setoid_rewrite py_sum_values_acc. ring.
  - unfold py_sum_values at 1 2. cbn [fold_left snd].
    setoid_rewrite py_sum_values_acc. rewrite (IH Hnd Hg). ring.
Qed.

Lemma py_dict_set_present_keys {V} (d : pydict V) (k : string) (v x0 : V) :
  py_dict_get d k = Some x0 -> map fst (py_dict_set d k v) = map fst d.
Proof.
  induction d as [|[k' v'] d IH]; cbn [py_dict_get py_dict_set]; intros Hg; [discriminate|].
  destruct (String.eqb_spec k k') as [->|Hk]; cbn [map fst]; [reflexivity|].
  now rewrite (IH Hg).
Qed.

(** C3, what the code does when the mapping already has the vacancy
    symbol ["X"] (as the table [copy()] passes, [self.elements], has
    whenever the species was not fully occupied): for a mapping with
    distinct keys whose occupancies sum to less than [1 - 1e-6] and whose
    ["X"] entry is [x0], [check_elements] keeps the keys in order and
    every other entry, and overwrites ["X"] with [1 - sum], the sum
    including [x0]; the result then sums to [1 - x0], not 1. *)
Theorem vacancy_filler_given_X (d : pydict Q) (x0 : Q)
    (Hnd : NoDup (map fst d))
    (Hx : py_dict_get d vacancy = Some x0)
    (Hunder : (py_sum_values d < 1 - tol)%Q) :
  exists d', check_elements (EDict d) = Ok d' /\
    map fst d' = map fst d /\
    py_dict_get d' vacancy = Some (1 - py_sum_values d)%Q /\
    (forall k, k <> vacancy -> py_dict_get d' k = py_dict_get d k) /\
    (py_sum_values d' == 1 - x0)%Q.
Proof.
  unfold check_elements. cbv zeta.
  destruct (Qlt_le_dec (py_sum_values d) (1 - tol)) as [H1|H1];
    [|exfalso; exact (Qlt_not_le _ _ Hunder H1)].
  eexists. split; [reflexivity|].
  split; [exact (py_dict_set_present_keys d vacancy _ x0 Hx)|].
  split; [apply py_dict_get_set_eq|].
  split; [intros k Hk; apply py_dict_get_set_neq, Hk|].
  rewrite (py_sum_values_set d vacancy _ x0 Hnd Hx). ring.
Qed.

(** C3, counterexample: [Batom('AB', ..., elements={'A': 1/3, 'B': 1/3})]
    stores the vacancy [X = 1/3]; [self.elements] then reads
    [{'A': 0.333, 'B': 0.333, 'X': 0.333}] (sum 0.999), and handing that
    back to [check_elements] (as [copy()] does) gives ["X"] the occupancy
    0.001: the given ["X"] does not keep its occupancy, and the total is
    0.667. *)
Lemma vacancy_filler_copy_overwrites :
  (exists b, py_dict_get (sc_objects scene_AB) (obj_name w_AB) = Some (SBatom b) /\
     get_elements (bo_elements b) = d_AB_read) /\
  (exists x, check_elements (EDict d_AB_read) =
               Ok [("A"%string, 333 # 1000); ("B"%string, 333 # 1000); (vacancy, x)] /\
             (x == 1 # 1000)%Q) /\
  ~ (forall d : pydict Q, (py_sum_values d < 1 - tol)%Q ->
       exists d', check_elements (EDict d) = Ok d' /\
         (forall k v, py_dict_get d k = Some v -> py_dict_get d' k = Some v)).
Proof.
  split; [eexists; split; [reflexivity|vm_compute; reflexivity]|].
  split; [eexists; split; [vm_compute; reflexivity|reflexivity]|].
  intros H.
  destruct (H d_AB_read) as [d' [Hd' Hkeep]]; [vm_compute; reflexivity|].
  vm_compute in Hd'. injection Hd' as <-.
  specialize (Hkeep "X"%string (333 # 1000) eq_refl).
  vm_compute in Hkeep. discriminate Hkeep.
Qed.

Lemma vacancy_filler_given_X_witness :
  NoDup (map fst d_AB_read) /\ py_dict_get d_AB_read vacancy = Some (333 # 1000) /\
  (py_sum_values d_AB_read < 1 - tol)%Q /\
  exists d', check_elements (EDict d_AB_read) = Ok d' /\
    (py_sum_values d' == 1 - (333 # 1000))%Q.
Proof.
  assert (Hnd : NoDup (map fst d_AB_read)).
  { cbn. repeat constructor; cbn; intuition discriminate. }
  assert (Hx : py_dict_get d_AB_read vacancy = Some (333 # 1000)) by reflexivity.
  assert (Hu : (py_sum_values d_AB_read < 1 - tol)%Q) by (vm_compute; reflexivity).
  split; [exact Hnd|split; [exact Hx|split; [exact Hu|]]].
  destruct (vacancy_filler_given_X d_AB_read _ Hnd Hx Hu) as [d' [Hc [_ [_ [_ Hs]]]]].
  exists d'. split; [exact Hc|exact Hs].
Defined.

(** For a mapping that does not use the vacancy symbol ["X"] and whose
    occupancies sum to less than [1 - 1e-6], [check_elements] keeps every
    given entry, in order, and appends ["X"] with occupancy [1 - sum];
    [{"Fe": 0.6}] gives [{"Fe": 0.6, "X": 0.4}]. *)
Theorem vacancy_filler_appended (d : pydict Q)
    (Hx : ~ In vacancy (map fst d))
    (Hunder : (py_sum_values d < 1 - tol)%Q) :
  check_elements (EDict d) = Ok (d ++ [(vacancy, (1 - py_sum_values d)%Q)]) /\
  check_elements (EDict [("Fe"%string, 6 # 10)]) =
    Ok [("Fe"%string, 6 # 10); (vacancy, 4 # 10)].
Proof.
  split; [|reflexivity].
  unfold check_elements.
  destruct (Qlt_le_dec (py_sum_values d) (1 - tol)) as [H1|H1].
  - now rewrite py_dict_set_absent.
  - exfalso. exact (Qlt_not_le _ _ Hunder H1).
Qed.

Lemma over_occupancy_leaves_scene_witness :
  (1 + tol < py_sum_values d_FeNi)%Q /\
  Batom_init "Fe" (P2 [vzero]) vzero (Some (EDict d_FeNi)) "batoms" None prim_empty scene_C2
    = (Err ValueError, scene_C2).
Proof.
  assert (Hs : (1 + tol < py_sum_values d_FeNi)%Q) by (vm_compute; reflexivity).
  split; [exact Hs|].
  destruct (over_occupancy_leaves_scene d_FeNi Hs) as [_ [H _]].
  apply H; [discriminate | simpl; discriminate].
Defined.

Lemma vacancy_filler_appended_witness :
  ~ In vacancy (map fst [("Fe"%string, 6 # 10)]) /\
  (py_sum_values [("Fe"%string, 6 # 10)] < 1 - tol)%Q /\
  check_elements (EDict [("Fe"%string, 6 # 10)]) =
    Ok ([("Fe"%string, 6 # 10)] ++ [(vacancy, (1 - py_sum_values [("Fe"%string, 6 # 10)])%Q)]).
Proof.
  assert (Hx : ~ In vacancy (map fst [("Fe"%string, 6 # 10)])).
  { simpl. intros [H|H]; [discriminate H|exact H]. }
  assert (Hu : (py_sum_values [("Fe"%string, 6 # 10)] < 1 - tol)%Q) by (vm_compute; reflexivity).
  split; [exact Hx|split; [exact Hu|]].
  exact (proj1 (vacancy_filler_appended _ Hx Hu)).
Defined.

(** ** The stable descending sort *)

Lemma insert_desc_perm x l : Permutation (insert_desc x l) (x :: l).
Proof.
  induction l as [|y l IH]; simpl; [reflexivity|].
  destruct (Qle_bool (snd y) (snd x)); [reflexivity|].
  rewrite IH. apply perm_swap.
Qed.

Lemma sort_desc_perm l : Permutation (sort_desc l) l.
Proof.
  induction l as [|x l IH]; simpl; [reflexivity|].
  rewrite insert_desc_perm. now apply perm_skip.
Qed.

Lemma insert_desc_front x s :
  (forall y, In y s -> (snd y <= snd x)%Q) -> insert_desc x s = x :: s.
Proof.
  destruct s as [|y s]; simpl; intros H; [reflexivity|].
  assert (Hy : Qle_bool (snd y) (snd x) = true) by (apply Qle_bool_iff, H; now left).
  now rewrite Hy.
Qed.

(** The first item of maximal occupancy comes first, and the rest is the
    sort of the other items. *)
Lemma sort_desc_first_max pre h post :
  Forall (fun p => (snd p < snd h)%Q) pre ->
  Forall (fun p => (snd p <= snd h)%Q) post ->
  sort_desc (pre ++ h :: post) = h :: sort_desc (pre ++ post).
Proof.
  induction pre as [|a pre IH]; simpl; intros Hpre Hpost.
  - apply insert_desc_front. intros y Hy.
    apply (Permutation_in _ (sort_desc_perm post)) in Hy.
    rewrite Forall_forall in Hpost. now apply Hpost.
  - inversion Hpre as [|? ? Ha Hpre']; subst.
    rewrite (IH Hpre' Hpost). simpl.
    assert (Hb : Qle_bool (snd h) (snd a) = false).
    { destruct (Qle_bool (snd h) (snd a)) eqn:E; [|reflexivity].
      apply Qle_bool_iff in E. exfalso. exact (Qlt_not_le _ _ Ha E). }
    now rewrite Hb.
Qed.

Lemma first_max_exists (l : list (string * Q)) :
  l <> [] ->
  exists pre h post, l = pre ++ h :: post /\
    Forall (fun p => (snd p < snd h)%Q) pre /\
    Forall (fun p => (snd p <= snd h)%Q) post.
Proof.
  induction l as [|x l IH]; intros Hne; [congruence|].
  destruct l as [|y l].
  - exists [], x, []. repeat split; constructor.
  - destruct IH as [pre [h [post [Hl [Hpre Hpost]]]]]; [discriminate|].
    destruct (Qlt_le_dec (snd x) (snd h)) as [Hlt|Hle].
    + exists (x :: pre), h, post. rewrite Hl. repeat split; auto.
    + exists [], x, (y :: l). repeat split; [constructor|].
      rewrite Hl. apply Forall_app. split.
      * rewrite Forall_forall in *. intros p Hp.
        apply Qlt_le_weak, Qlt_le_trans with (snd h); auto.
      * constructor; [exact Hle|].
        rewrite Forall_forall in *. intros p Hp. apply Qle_trans with (snd h); auto.
Qed.

Lemma insert_desc_sorted x l :
  Sorted (fun a b => (snd b <= snd a)%Q) l ->
  Sorted (fun a b => (snd b <= snd a)%Q) (insert_desc x l).
Proof.
  induction l as [|y l IH]; simpl; intros Hs; [repeat constructor|].
  destruct (Qle_bool (snd y) (snd x)) eqn:E.
  - constructor; [exact Hs|]. constructor. now apply Qle_bool_iff.
  - apply Sorted_inv in Hs as [Hs Hhd].
    assert (Hxy : (snd x <= snd y)%Q).
    { apply Qlt_le_weak, Qnot_le_lt. intros Hc. apply Qle_bool_iff in Hc. congruence. }
    constructor; [now apply IH|].
    destruct l as [|z l]; simpl; [now constructor|].
    destruct (Qle_bool (snd z) (snd x)); constructor; [exact Hxy|].
    now apply HdRel_inv in Hhd.
Qed.

Lemma sort_desc_sorted l : Sorted (fun a b => (snd b <= snd a)%Q) (sort_desc l).
Proof.
  induction l as [|x l IH]; simpl; [constructor|]. now apply insert_desc_sorted.
Qed.

Lemma insert_desc_stable (q : Q) x l :
  filter (fun y => Qeq_bool (snd y) q) (insert_desc x l) =
  filter (fun y => Qeq_bool (snd y) q) (x :: l).
Proof.
  induction l as [|y l IH]; [reflexivity|]. cbn [insert_desc].
  destruct (Qle_bool (snd y) (snd x)) eqn:E; [reflexivity|].
  cbn [filter]. rewrite IH. cbn [filter].
  destruct (Qeq_bool (snd x) q) eqn:Ex, (Qeq_bool (snd y) q) eqn:Ey; try reflexivity.
  exfalso. apply Qeq_bool_eq in Ex, Ey.
  assert (Hle : (snd y <= snd x)%Q) by (rewrite Ex, Ey; apply Qle_refl).
  apply Qle_bool_iff in Hle. congruence.
Qed.

Lemma sort_desc_stable (l : list (string * Q)) (q : Q) :
  filter (fun y => Qeq_bool (snd y) q) (sort_desc l) = filter (fun y => Qeq_bool (snd y) q) l.
Proof.
  induction l as [|x l IH]; [reflexivity|]. cbn [sort_desc].
  rewrite insert_desc_stable. cbn [filter]. now rewrite IH.
Qed.

(** ** Dict keys are unique *)

Lemma py_dict_set_keys {V} (d : pydict V) k v :
  (In k (map fst d) -> map fst (py_dict_set d k v) = map fst d) /\
  (~ In k (map fst d) -> map fst (py_dict_set d k v) = map fst d ++ [k]).
Proof.
  induction d as [|[k' v'] d IH]; simpl; [split; intros H; [contradiction|reflexivity]|].
  destruct (String.eqb k k') eqn:E.
  - apply String.eqb_eq in E. subst. split; intros H; [reflexivity|tauto].
  - assert (Hne : k' <> k) by (intros Heq; subst; now rewrite String.eqb_refl in E).
    destruct IH as [IH1 IH2]. split; intros H; simpl.
    + rewrite IH1; [reflexivity|]. destruct H; [congruence|assumption].
    + rewrite IH2; [reflexivity|tauto].
Qed.

Lemma py_dict_set_nodup {V} (d : pydict V) k v :
  NoDup (map fst d) -> NoDup (map fst (py_dict_set d k v)).
Proof.
  intros Hd. destruct (In_dec string_dec k (map fst d)) as [Hin|Hin].
  - now rewrite (proj1 (py_dict_set_keys d k v) Hin).
  - rewrite (proj2 (py_dict_set_keys d k v) Hin).
    apply (Permutation_NoDup (Permutation_cons_append (map fst d) k)).
    now constructor.
Qed.

Lemma get_elements_nodup (coll : list eledata) : NoDup (map fst (get_elements coll)).
Proof.
  unfold get_elements.
  assert (H : forall acc, NoDup (map fst acc) ->
    NoDup (map fst (fold_left (fun acc ed => py_dict_set acc (ed_name ed) (round3 (ed_occupancy ed)))
                      coll acc))).
  { induction coll as [|ed coll IH]; simpl; intros acc Hacc; [exact Hacc|].
    apply IH. now apply py_dict_set_nodup. }
  apply H. constructor.
Qed.

Lemma Forall_filter_keep {A} (P : A -> Prop) (f : A -> bool) l :
  Forall P l -> Forall P (filter f l).
Proof.
  rewrite !Forall_forall. intros H x Hx. apply filter_In in Hx. now apply H.
Qed.

Lemma filter_all_true {A} (f : A -> bool) l :
  (forall x, In x l -> f x = true) -> filter f l = l.
Proof.
  induction l as [|x l IH]; simpl; intros H; [reflexivity|].
  rewrite (H x (or_introl eq_refl)). f_equal. apply IH. auto.
Qed.

(** ** C4: [main_element] *)

(** C4 (as amended): with [els] the element table as [self.elements]
    reads it (occupancies rounded to three decimals) and [nonvac] its
    items other than ["X"]: when [nonvac] is empty (only the vacancy
    remains) [main_element] raises [IndexError]; otherwise it returns the
    first item of [nonvac], in definition order, whose rounded occupancy is
    maximal: every earlier item is strictly lower, every later one is not
    higher. *)
Theorem main_element_first_max (coll : list eledata) :
  let nonvac := filter is_not_vacancy (get_elements coll) in
  (nonvac = [] -> main_element coll = Err IndexError) /\
  (nonvac <> [] ->
   exists pre k v post,
     nonvac = pre ++ (k, v) :: post /\
     Forall (fun p => (snd p < v)%Q) pre /\
     Forall (fun p => (snd p <= v)%Q) post /\
     main_element coll = Ok k).
Proof.
  intros nonvac. subst nonvac. unfold main_element.
  pose proof (get_elements_nodup coll) as Hnd.
  destruct (get_elements coll) as [|e0 el] eqn:Hel.
  { simpl. split; [reflexivity|congruence]. }
  destruct (first_max_exists (e0 :: el)) as [pre [h [post [Hl [Hpre Hpost]]]]];
    [discriminate|].
  rewrite Hl in *. rewrite (sort_desc_first_max pre h post Hpre Hpost).
  destruct h as [k v]. simpl in Hpre, Hpost.
  rewrite filter_app. simpl.
  change (is_not_vacancy (k, v)) with (negb (String.eqb k vacancy)).
  destruct (String.eqb k vacancy) eqn:Ek; simpl.
  - apply String.eqb_eq in Ek. subst k.
    rewrite map_app in Hnd. simpl in Hnd. apply NoDup_remove_2 in Hnd.
    rewrite <- map_app in Hnd.
    assert (Hid : forall l, incl l (pre ++ post) -> filter is_not_vacancy l = l).
    { intros l Hinc. apply filter_all_true. intros x Hx. unfold is_not_vacancy.
      destruct (String.eqb (fst x) vacancy) eqn:Ex; [|reflexivity].
      apply String.eqb_eq in Ex. exfalso. apply Hnd. rewrite <- Ex.
      apply in_map. now apply Hinc. }
    rewrite (Hid pre), (Hid post) by (intros x Hx; apply in_or_app; auto).
    destruct (pre ++ post) as [|x l] eqn:Hpp.
    + simpl. split; [reflexivity|congruence].
    + destruct (first_max_exists (x :: l)) as [pre2 [h2 [post2 [Hl2 [Hpre2 Hpost2]]]]];
        [discriminate|].
      rewrite Hl2, (sort_desc_first_max pre2 h2 post2 Hpre2 Hpost2).
      destruct h2 as [k2 v2].
      split; [intros Hc; apply app_eq_nil in Hc as [_ Hc]; discriminate|intros _].
      exists pre2, k2, v2, post2. repeat split; auto.
  - split; [intros Hc; apply app_eq_nil in Hc as [_ Hc]; discriminate|intros _].
    exists (filter is_not_vacancy pre), k, v, (filter is_not_vacancy post).
    repeat split; try (now apply Forall_filter_keep).
Qed.

(** C4, counterexample: [{'Al': 0.40625, 'Si': 0.406494140625}] (exact
    binary fractions): Si has the strictly highest occupancy, but both read
    back as [0.406] and [main_element] returns ["Al"]. *)
Lemma main_element_rounding_tie :
  (13 # 32 < 1665 # 4096)%Q /\
  exists b, py_dict_get (sc_objects scene_AlSi) (obj_name w_A) = Some (SBatom b) /\
            main_element (bo_elements b) = Ok "Al"%string.
Proof.
  split; [reflexivity|].
  eexists. split; [vm_compute; reflexivity|]. vm_compute. reflexivity.
Qed.

(** ** The wedge loop, face by face *)

Lemma set_in_wedge_zipmap i tos toe angles idx :
  set_in_wedge i tos toe angles idx =
  zipmap (fun a j => if Rlt_dec tos a then if Rlt_dec a toe then i else j else j) angles idx.
Proof.
  revert idx. induction angles as [|a angles IH]; intros [|j idx]; simpl; auto.
  now rewrite IH.
Qed.

Lemma zipmap_comp {A B} (f g : A -> B -> B) as_ bs :
  zipmap f as_ (zipmap g as_ bs) = zipmap (fun a b => f a (g a b)) as_ bs.
Proof.
  revert bs. induction as_ as [|a as_ IH]; intros [|b bs]; simpl; auto.
  now rewrite IH.
Qed.

Lemma zipmap_ext {A B} (f g : A -> B -> B) as_ bs :
  (forall a b, f a b = g a b) -> zipmap f as_ bs = zipmap g as_ bs.
Proof.
  intros H. revert bs. induction as_ as [|a as_ IH]; intros [|b bs]; simpl; auto.
  now rewrite H, IH.
Qed.

Lemma zipmap_snd {A B} as_ (bs : list B) : zipmap (fun (_ : A) b => b) as_ bs = bs.
Proof.
  revert bs. induction as_ as [|a as_ IH]; intros [|b bs]; simpl; auto.
  now rewrite IH.
Qed.

Lemma wedge_loop_zipmap i rest tos angles idx :
  wedge_loop i rest tos angles idx = zipmap (wedge_face i rest tos) angles idx.
Proof.
  revert i tos idx. induction rest as [|[e occ] rest IH]; intros i tos idx; simpl.
  - symmetry. apply zipmap_snd.
  - rewrite IH, set_in_wedge_zipmap, zipmap_comp. reflexivity.
Qed.

Lemma wedge_face_hit i rest tos a j :
  wedge_face i rest tos a j = match wedge_hit i rest tos a with Some v => v | None => j end.
Proof.
  revert i tos j. induction rest as [|[e occ] rest IH]; intros i tos j; simpl; [reflexivity|].
  rewrite IH. destruct (wedge_hit (i + 1) rest (tos + Q2R occ)%R a); [reflexivity|].
  destruct (Rlt_dec tos a); [destruct (Rlt_dec a (tos + Q2R occ)%R)|]; reflexivity.
Qed.

Lemma wedge_face_idem i rest tos a j :
  wedge_face i rest tos a (wedge_face i rest tos a j) = wedge_face i rest tos a j.
Proof.
  rewrite !wedge_face_hit. destruct (wedge_hit i rest tos a); reflexivity.
Qed.

Lemma Q2R_nonneg q : (0 <= q)%Q -> (0 <= Q2R q)%R.
Proof.
  intros H. apply Qle_Rle in H. unfold Q2R at 1 in H. simpl in H.
  rewrite Rmult_0_l in H. exact H.
Qed.

Lemma wedge_start_nonneg rest t :
  Forall (fun p => (0 <= snd p)%Q) rest -> (0 <= wedge_start rest t)%R.
Proof.
  revert t. induction rest as [|[e occ] rest IH]; intros [|t] H; simpl; try lra.
  inversion H as [|? ? Ho Hr]; subst. simpl in Ho.
  pose proof (Q2R_nonneg _ Ho). pose proof (IH t Hr). lra.
Qed.

Lemma wedge_start_0 rest : wedge_start rest 0 = 0%R.
Proof. reflexivity. Qed.

Lemma wedge_start_cons e occ rest t :
  wedge_start ((e, occ) :: rest) (S t) = (Q2R occ + wedge_start rest t)%R.
Proof. reflexivity. Qed.

(** A face in no wedge keeps its index. *)
Lemma wedge_face_miss i rest tos a j :
  (forall t, (t < List.length rest)%nat ->
     ~ (tos + wedge_start rest t < a < tos + wedge_start rest (S t))%R) ->
  wedge_face i rest tos a j = j.
Proof.
  revert i tos j. induction rest as [|[e occ] rest IH]; intros i tos j H; simpl; [reflexivity|].
  assert (Hj : (if Rlt_dec tos a then if Rlt_dec a (tos + Q2R occ)%R then i else j else j) = j).
  { destruct (Rlt_dec tos a) as [H1|H1]; [|reflexivity].
    destruct (Rlt_dec a (tos + Q2R occ)%R) as [H2|H2]; [|reflexivity].
    exfalso. apply (H 0%nat); [simpl; lia|]. rewrite wedge_start_cons, !wedge_start_0. lra. }
  rewrite Hj. apply IH. intros t Ht Hc. apply (H (S t)); [simpl; lia|].
  rewrite !wedge_start_cons. lra.
Qed.

(** With non-negative occupancies, a face inside wedge [t] gets [i + t]. *)
Lemma wedge_face_hit_at i rest tos a j t :
  Forall (fun p => (0 <= snd p)%Q) rest ->
  (t < List.length rest)%nat ->
  (tos + wedge_start rest t < a < tos + wedge_start rest (S t))%R ->
  wedge_face i rest tos a j = (i + Z.of_nat t)%Z.
Proof.
  revert i tos j t. induction rest as [|[e occ] rest IH]; intros i tos j t Hnn Ht Hin;
    simpl in Ht; [lia|].
  inversion Hnn as [|? ? Ho Hr]; subst. simpl in Ho.
  pose proof (Q2R_nonneg _ Ho) as Ho'.
  destruct t as [|t]; [rewrite wedge_start_cons, !wedge_start_0 in Hin|rewrite !wedge_start_cons in Hin];
    cbn [wedge_face].
  - destruct (Rlt_dec tos a) as [H1|H1]; [|lra].
    destruct (Rlt_dec a (tos + Q2R occ)%R) as [H2|H2]; [|lra].
    rewrite wedge_face_miss; [lia|].
    intros t' Ht' Hc. pose proof (wedge_start_nonneg rest t' Hr). lra.
  - pose proof (wedge_start_nonneg rest t Hr).
    assert (Hj : (if Rlt_dec tos a then if Rlt_dec a (tos + Q2R occ)%R then i else j else j) = j).
    { destruct (Rlt_dec tos a); [|reflexivity].
      destruct (Rlt_dec a (tos + Q2R occ)%R); [lra|reflexivity]. }
    rewrite Hj, (IH (i + 1)%Z (tos + Q2R occ)%R j t Hr); [lia|lia|lra].
Qed.

(** ** Face angles *)

Lemma turn_fraction_bounds (v : R) :
  (- PI <= v <= PI)%R -> (0 <= (v + PI) / PI / 2 <= 1)%R.
Proof.
  intros Hv. pose proof PI_RGT_0 as Hpi.
  assert (E : ((v + PI) / PI / 2 = (v + PI) * / (2 * PI))%R) by (field; lra).
  rewrite E.
  assert (Hinv : (0 < / (2 * PI))%R) by (apply Rinv_0_lt_compat; lra).
  split.
  - apply Rmult_le_pos; lra.
  - apply Rmult_le_reg_r with (2 * PI)%R; [lra|].
    rewrite Rmult_assoc, Rinv_l, Rmult_1_r; lra.
Qed.

Lemma atan_nonpos x : (x <= 0)%R -> (atan x <= 0)%R.
Proof.
  intros [Hx|Hx].
  - left. rewrite <- atan_0. now apply atan_increasing.
  - subst. rewrite atan_0. lra.
Qed.

Lemma atan_nonneg x : (0 <= x)%R -> (0 <= atan x)%R.
Proof.
  intros [Hx|Hx].
  - left. rewrite <- atan_0. now apply atan_increasing.
  - subst. rewrite atan_0. lra.
Qed.

Lemma atan2_bounds y x : (- PI <= atan2 y x <= PI)%R.
Proof.
  pose proof PI_RGT_0 as Hpi. pose proof (atan_bound (y / x)) as Hb.
  unfold atan2.
  destruct (Rlt_dec 0 x) as [Hx|Hx]; [lra|].
  destruct (Rlt_dec x 0) as [Hx'|Hx'].
  - pose proof (Rinv_lt_0_compat x Hx') as Hi.
    destruct (Rle_dec 0 y) as [Hy|Hy].
    + assert (Hq : (y / x <= 0)%R) by (unfold Rdiv; nra).
      pose proof (atan_nonpos _ Hq). lra.
    + assert (Hq : (0 <= y / x)%R) by (unfold Rdiv; nra).
      pose proof (atan_nonneg _ Hq). lra.
  - destruct (Rlt_dec 0 y); [lra|]. destruct (Rlt_dec y 0); lra.
Qed.

Lemma face_angle_bounds n : (0 <= face_angle n <= 1)%R.
Proof.
  destruct n as [[nx ny] nz]. unfold face_angle.
  apply turn_fraction_bounds, atan2_bounds.
Qed.

(** A normal along [-x] has angle [1], outside [[0, 1)]. *)
Lemma face_angle_minus_x : face_angle ((-1)%R, 0%R, 0%R) = 1%R.
Proof.
  pose proof PI_RGT_0 as Hpi. unfold face_angle, atan2.
  destruct (Rlt_dec 0 (-1)) as [H|_]; [lra|].
  destruct (Rlt_dec (-1) 0) as [_|H]; [|lra].
  destruct (Rle_dec 0 0) as [_|H]; [|lra].
  replace (0 / -1)%R with 0%R by field. rewrite atan_0. field. lra.
Qed.

Lemma face_angle_minus_xy : face_angle ((-1)%R, (-1)%R, 0%R) = (1 / 8)%R.
Proof.
  pose proof PI_RGT_0 as Hpi. unfold face_angle, atan2.
  destruct (Rlt_dec 0 (-1)) as [H|_]; [lra|].
  destruct (Rlt_dec (-1) 0) as [_|H]; [|lra].
  destruct (Rle_dec 0 (-1)) as [H|_]; [lra|].
  replace (-1 / -1)%R with 1%R by field. rewrite atan_1. field. lra.
Qed.

(** ** C1: the wedge assignment *)

Lemma zipmap_repeat_Forall2 {A B} (f : A -> B -> B) (as_ : list A) (b : B) :
  Forall2 (fun a j => j = f a b) as_ (zipmap f as_ (List.repeat b (List.length as_))).
Proof. induction as_ as [|a as_ IH]; simpl; constructor; auto. Qed.

(** C1 (as amended): for a table [els] of [n > 1] elements with
    non-negative occupancies and any instance mesh, [assign_materials]
    orders the elements by descending occupancy (a stable sort: a
    permutation of [els], sorted, in which elements of equal occupancy
    keep their order), gives the mesh one material slot per element in
    that order, computes each face's angle [(atan2(ny, nx) + pi)/pi/2], a
    value in [[0, 1]], and sets the index of a face to [t + 1] when its
    angle lies in the OPEN interval [(S_t, S_(t+1))], where [S_t] is the
    sum of the occupancies of the sorted elements [1 .. t] (element 0
    excluded, [S_0 = 0]); every other face gets index 0, whatever index it
    had before.  So element 0 gets the faces of [[S_(n-1), 1]] and of the
    interval end points. *)
Theorem wedge_assignment (els : pydict Q) (m : mesh)
    (Hn : (1 < List.length els)%nat)
    (Hnn : Forall (fun p => (0 <= snd p)%Q) els) :
  let s := sort_desc els in
  let m' := assign_materials els m in
  Permutation s els /\
  Sorted (fun a b => (snd b <= snd a)%Q) s /\
  (forall q, filter (fun x => Qeq_bool (snd x) q) s = filter (fun x => Qeq_bool (snd x) q) els) /\
  m_materials m' = map fst s /\
  m_normals m' = m_normals m /\
  (forall nrm, 0 <= face_angle nrm <= 1)%R /\
  Forall2 (fun a j =>
     (forall t, (t < List.length s - 1)%nat ->
        (wedge_start (List.tl s) t < a < wedge_start (List.tl s) (S t))%R ->
        j = Z.of_nat (S t)) /\
     ((forall t, (t < List.length s - 1)%nat ->
        ~ (wedge_start (List.tl s) t < a < wedge_start (List.tl s) (S t))%R) ->
      j = 0%Z))
    (map face_angle (m_normals m)) (m_material_index m').
Proof.
  intros s m'. subst s m'.
  pose proof (sort_desc_perm els) as Hp.
  assert (Hlen : List.length (sort_desc els) = List.length els) by now apply Permutation_length.
  assert (Hnn_s : Forall (fun p => (0 <= snd p)%Q) (List.tl (sort_desc els))).
  { destruct (sort_desc els) as [|x l] eqn:Es; simpl; [constructor|].
    rewrite Forall_forall in *. intros y Hy. apply Hnn.
    apply (Permutation_in _ Hp). now right. }
  split; [exact Hp|]. split; [apply sort_desc_sorted|]. split; [apply sort_desc_stable|].
  unfold assign_materials.
  assert (Hlt : Nat.ltb 1 (List.length (sort_desc els)) = true) by (apply Nat.ltb_lt; lia).
  rewrite Hlt. cbv beta iota zeta. cbn [m_materials m_normals m_material_index].
  split; [reflexivity|]. split; [reflexivity|]. split; [apply face_angle_bounds|].
  rewrite wedge_loop_zipmap.
  rewrite <- (length_map face_angle (m_normals m)).
  eapply Forall2_impl; [|apply zipmap_repeat_Forall2].
  intros a j Hj. cbv beta in Hj. subst j. split.
  - intros t Ht Hin.
    rewrite (wedge_face_hit_at 1 (List.tl (sort_desc els)) 0 a 0 t Hnn_s).
    + try rewrite Zpos_P_of_succ_nat; lia.
    + destruct (sort_desc els); simpl in *; lia.
    + lra.
  - intros Hmiss. apply wedge_face_miss. intros t Ht Hc. apply (Hmiss t).
    + destruct (sort_desc els); simpl in *; lia.
    + lra.
Qed.

Lemma wedge_assignment_witness :
  (1 < List.length [("A"%string, 3 # 4); ("B"%string, 1 # 4)])%nat /\
  Forall (fun p => (0 <= snd p)%Q) [("A"%string, 3 # 4); ("B"%string, 1 # 4)] /\
  m_materials (assign_materials [("A"%string, 3 # 4); ("B"%string, 1 # 4)]
                 (mk_mesh [((-1)%R, (-1)%R, 0%R)] [0%Z] [])) =
    map fst (sort_desc [("A"%string, 3 # 4); ("B"%string, 1 # 4)]).
Proof.
  assert (H1 : (1 < List.length [("A"%string, 3 # 4); ("B"%string, 1 # 4)])%nat) by (simpl; lia).
  assert (H2 : Forall (fun p => (0 <= snd p)%Q) [("A"%string, 3 # 4); ("B"%string, 1 # 4)]).
  { repeat constructor; simpl; discriminate. }
  split; [exact H1|split; [exact H2|]].
  destruct (wedge_assignment _ (mk_mesh [((-1)%R, (-1)%R, 0%R)] [0%Z] []) H1 H2)
    as [_ [_ [_ [H _]]]]. exact H.
Defined.

(** C1, counterexample: with [{A: 0.75, B: 0.25}] a face whose normal is
    [(-1, -1, 0)] has angle [1/8], inside [[0, c_0) = [0, 0.75)], yet it is
    given index 1 (element B), not 0: B's wedge is [(0, 0.25)]. *)
Lemma wedge_first_interval_not_majority :
  face_angle ((-1)%R, (-1)%R, 0%R) = (1 / 8)%R /\
  (1 / 8 < Q2R (3 # 4))%R /\
  m_materials (assign_materials [("A"%string, 3 # 4); ("B"%string, 1 # 4)]
                 (mk_mesh [((-1)%R, (-1)%R, 0%R)] [0%Z] [])) = ["A"%string; "B"%string] /\
  m_material_index (assign_materials [("A"%string, 3 # 4); ("B"%string, 1 # 4)]
                      (mk_mesh [((-1)%R, (-1)%R, 0%R)] [0%Z] [])) = [1%Z].
Proof.
  assert (Hq : Q2R (1 # 4) = (1 / 4)%R) by (unfold Q2R; simpl; field).
  assert (Hq3 : Q2R (3 # 4) = (3 / 4)%R) by (unfold Q2R; simpl; field).
  split; [exact face_angle_minus_xy|]. split; [rewrite Hq3; lra|].
  split; [reflexivity|].
  assert (Hs : sort_desc [("A"%string, 3 # 4); ("B"%string, 1 # 4)] =
                [("A"%string, 3 # 4); ("B"%string, 1 # 4)]) by reflexivity.
  unfold assign_materials. rewrite Hs. cbv beta iota zeta.
  cbn [m_material_index m_normals List.tl List.length Nat.ltb Nat.leb map wedge_loop set_in_wedge].
  rewrite face_angle_minus_xy, Hq.
  destruct (Rlt_dec 0 (1 / 8)) as [_|H]; [|lra].
  destruct (Rlt_dec (1 / 8) (0 + 1 / 4)) as [_|H]; [reflexivity|lra].
Qed.

(** ** C9: determinism and idempotence of the wedge assignment *)

(** C9: [assign_materials] depends on the element table and the face
    normals only: two runs on meshes with the same normals give the same
    mesh (face indices and material slots), whatever indices and slots the
    meshes had before, since [mesh.materials.clear()] resets them; and
    running it a second time on its own output with the same table changes
    nothing. *)
Theorem assign_materials_deterministic_idempotent (els : pydict Q) (m1 m2 : mesh) :
  (m_normals m1 = m_normals m2 -> assign_materials els m1 = assign_materials els m2) /\
  assign_materials els (assign_materials els m1) = assign_materials els m1.
Proof.
  assert (Hdet : forall m m', m_normals m = m_normals m' ->
                   assign_materials els m = assign_materials els m').
  { intros m m' H. unfold assign_materials. rewrite H. reflexivity. }
  split; [apply Hdet|].
  apply Hdet. unfold assign_materials.
  destruct (Nat.ltb 1 (List.length (sort_desc els))); reflexivity.
Qed.

(** ** C5: the position round trip *)

Lemma round32_Qeq (x y : Q) : (x == y)%Q -> round32 x = round32 y.
Proof. intros H. unfold round32. now rewrite (Qred_complete x y H). Qed.

Lemma round32v_affine_inv_id (mi : affine) (v : vec3) :
  affine_inv affine_id = Ok mi -> round32v (affine_apply mi v) = round32v v.
Proof.
  intros H. vm_compute in H. injection H as <-.
  destruct v as [[x y] z]. unfold round32v, affine_apply, vdot. cbn [fst snd a_r0 a_r1 a_r2 a_t].
  f_equal; [f_equal|]; apply round32_Qeq; ring.
Qed.

Lemma veqb_affine_id (v : vec3) : veqb (affine_apply affine_id v) v = true.
Proof.
  destruct v as [[x y] z]. unfold veqb, affine_apply, affine_id, vdot. cbn [fst snd a_r0 a_r1 a_r2 a_t].
  rewrite !andb_true_iff, !Qeq_bool_iff. repeat split; ring.
Qed.

Lemma veqb_trans (a b c : vec3) : veqb a b = true -> veqb b c = true -> veqb a c = true.
Proof.
  destruct a as [[x y] z], b as [[x' y'] z'], c as [[x'' y''] z''].
  unfold veqb. rewrite !andb_true_iff, !Qeq_bool_iff.
  intros [[H1 H2] H3] [[H4 H5] H6]. repeat split; eapply Qeq_trans; eauto.
Qed.

Lemma veqb_list_map_id (l : list vec3) :
  veqb_list (map (affine_apply affine_id) l) l = true.
Proof. induction l as [|v l IH]; cbn [map veqb_list]; [reflexivity|]. now rewrite veqb_affine_id, IH. Qed.

Lemma veqb_list_trans (l1 l2 l3 : list vec3) :
  veqb_list l1 l2 = true -> veqb_list l2 l3 = true -> veqb_list l1 l3 = true.
Proof.
  revert l2 l3; induction l1 as [|a l1 IH]; intros [|b l2] [|c l3]; simpl; try discriminate; auto.
  rewrite !andb_true_iff. intros [H1 H2] [H3 H4]. split; [eapply veqb_trans; eauto|eauto].
Qed.

Lemma veqb_list_of_Forall (l : list vec3) :
  Forall (fun v => veqb (round32v v) v = true) l -> veqb_list (map round32v l) l = true.
Proof. induction 1; simpl; [reflexivity|]. now rewrite H, IHForall. Qed.

(** C5 (as amended): under the identity placement, for positions [p] of
    the collection's length, [set_positions p] succeeds and a following
    [get_positions] returns [p] rounded to single precision componentwise
    (the vertex storage), equal as floats; so it returns exactly [p] when
    every coordinate of [p] is a single-precision value. *)
Theorem set_get_positions_identity (w : batom) (st : scene) (b : batom_obj) (p : list vec3)
    (Hobj : py_dict_get (sc_objects st) (obj_name w) = Some (SBatom b))
    (Hid : bo_world b = affine_id)
    (Hlen : List.length p = List.length (bo_verts b)) :
  exists st', set_positions w p st = (Ok tt, st') /\
    exists q, fst (get_positions w st') = Ok q /\
      veqb_list q (map round32v p) = true /\
      (Forall (fun v => veqb (round32v v) v = true) p -> veqb_list q p = true).
Proof.
  destruct (affine_inv affine_id) as [mi|e] eqn:Hinv; [|vm_compute in Hinv; discriminate].
  unfold set_positions, get_obj, bind, get_scene. rewrite Hobj. cbn [ret].
  rewrite Hlen, Nat.eqb_refl. cbn [negb].
  unfold local2global. rewrite Hid, Hinv. cbn [lift ret].
  eexists. split; [reflexivity|].
  unfold get_positions, get_obj, put_obj, put_scene, bind, get_scene. cbn [sc_objects].
  rewrite py_dict_get_set_eq. cbn [ret bo_verts bo_world lift local2global].
  eexists. split; [reflexivity|].
  assert (Hm : map round32v (map (affine_apply mi) p) = map round32v p).
  { rewrite map_map. apply map_ext. intros v. now apply round32v_affine_inv_id. }
  rewrite Hm. split; [apply veqb_list_map_id|].
  intros Hs. eapply veqb_list_trans; [apply veqb_list_map_id|]. now apply veqb_list_of_Forall.
Qed.

Lemma set_get_positions_identity_witness :
  exists b, py_dict_get (sc_objects scene_C2) (obj_name w_C) = Some (SBatom b) /\
    bo_world b = affine_id /\
    List.length [(dbl_0_1, 0%Q, 0%Q); vzero] = List.length (bo_verts b) /\
    exists st', set_positions w_C [(dbl_0_1, 0%Q, 0%Q); vzero] scene_C2 = (Ok tt, st') /\
      exists q, fst (get_positions w_C st') = Ok q /\
        veqb_list q (map round32v [(dbl_0_1, 0%Q, 0%Q); vzero]) = true /\
        (Forall (fun v => veqb (round32v v) v = true) [(dbl_0_1, 0%Q, 0%Q); vzero] ->
         veqb_list q [(dbl_0_1, 0%Q, 0%Q); vzero] = true).
Proof.
  eexists. split; [reflexivity|]. split; [reflexivity|]. split; [reflexivity|].
  eapply (set_get_positions_identity w_C scene_C2); reflexivity.
Defined.

(** C5, counterexample: the double nearest to 0.1 written as an x
    coordinate under the identity placement comes back as the single
    nearest to it, 13421773 / 2^27, which differs from it by about
    1.49e-9 > 1e-9. *)
Lemma set_get_positions_float32_loss :
  (exists b, py_dict_get (sc_objects scene_C2) (obj_name w_C) = Some (SBatom b) /\
     bo_world b = affine_id /\ List.length (bo_verts b) = 2%nat) /\
  fst (set_positions w_C [(dbl_0_1, 0%Q, 0%Q); vzero] scene_C2) = Ok tt /\
  match fst (get_positions w_C (snd (set_positions w_C [(dbl_0_1, 0%Q, 0%Q); vzero] scene_C2))) with
  | Ok ((x, _, _) :: _) =>
      Qeq_bool x (13421773 # 134217728) && negb (Qle_bool (Qabs (x - dbl_0_1)) (1 # 1000000000))
  | _ => false
  end = true.
Proof.
  split; [|split; vm_compute; reflexivity].
  eexists. split; [vm_compute; reflexivity|]. split; reflexivity.
Qed.

(** ** C6: repeat *)

Lemma combine_seq_app {A} (l1 l2 : list A) (s : nat) :
  combine (seq s (List.length (l1 ++ l2))) (l1 ++ l2) =
  combine (seq s (List.length l1)) l1 ++ combine (seq (s + List.length l1) (List.length l2)) l2.
Proof.
  revert s; induction l1 as [|a l1 IH]; intros s; simpl.
  - now rewrite Nat.add_0_r.
  - f_equal. rewrite IH. now replace (S s + List.length l1)%nat with (s + S (List.length l1))%nat by lia.
Qed.

Lemma map_combine_seq_const (i0 n : nat) (v : vec3) (l : list vec3) (s : nat) (b : bool) :
  (forall i, (s <= i < s + List.length l)%nat -> (Nat.leb i0 i && Nat.ltb i (i0 + n))%bool = b) ->
  map (fun p => if (Nat.leb i0 (fst p) && Nat.ltb (fst p) (i0 + n))%bool
                then vadd (snd p) v else snd p) (combine (seq s (List.length l)) l) =
  if b then map (fun x => vadd x v) l else l.
Proof.
  revert s; induction l as [|a l IH]; intros s Hg; cbn [List.length seq combine map fst snd];
    [now destruct b|].
  rewrite (Hg s) by (simpl; lia). rewrite IH by (intros i Hi; apply Hg; simpl; lia).
  now destruct b.
Qed.

Lemma add_block_mid (A p B : list vec3) (v : vec3) :
  add_block (A ++ p ++ B) (List.length A) (List.length p) v =
  A ++ map (fun x => vadd x v) p ++ B.
Proof.
  unfold add_block. rewrite !combine_seq_app, !map_app.
  rewrite (map_combine_seq_const _ _ v A 0 false), (map_combine_seq_const _ _ v p _ true),
    (map_combine_seq_const _ _ v B _ false); try reflexivity;
    intros i Hi.
  - apply Bool.andb_false_iff. right. apply Nat.ltb_ge. lia.
  - apply andb_true_iff. split; [apply Nat.leb_le|apply Nat.ltb_lt]; lia.
  - apply Bool.andb_false_iff. left. apply Nat.leb_gt. lia.
Qed.

Lemma fold_add_blocks (p : list vec3) (cell : cell3) (ts : list (Z * Z * Z)) (A : list vec3) :
  fold_left (fun acc t => (add_block (fst acc) (snd acc) (List.length p) (offset t cell),
                           (snd acc + List.length p)%nat))
    ts (A ++ List.concat (List.repeat p (List.length ts)), List.length A) =
  (A ++ List.concat (map (fun t => map (fun x => vadd x (offset t cell)) p) ts),
   (List.length A + List.length p * List.length ts)%nat).
Proof.
  revert A; induction ts as [|t ts IH]; intros A; simpl.
  - f_equal. lia.
  - rewrite add_block_mid.
    replace (List.length A + List.length p)%nat
      with (List.length (A ++ map (fun x => vadd x (offset t cell)) p)).
    + rewrite app_assoc, IH, <- app_assoc, length_app, length_map. f_equal. lia.
    + now rewrite length_app, length_map.
Qed.

Lemma length_flat_map_const {A B} (f : A -> list B) (l : list A) (c : nat) :
  (forall x, List.length (f x) = c) -> List.length (flat_map f l) = (List.length l * c)%nat.
Proof.
  intros Hf; induction l as [|a l IH]; simpl; [reflexivity|].
  rewrite length_app, Hf, IH. reflexivity.
Qed.

Lemma length_pyrange (k : Z) : List.length (pyrange k) = Z.to_nat k.
Proof. unfold pyrange. now rewrite length_map, length_seq. Qed.

Lemma length_triples (k0 k1 k2 : Z) :
  (0 <= k0)%Z -> (0 <= k1)%Z -> (0 <= k2)%Z ->
  List.length (triples (k0, k1, k2)) = Z.to_nat (k0 * k1 * k2).
Proof.
  intros H0 H1 H2. unfold triples.
  rewrite (length_flat_map_const _ _ (Z.to_nat k1 * Z.to_nat k2)).
  - rewrite length_pyrange, !Z2Nat.inj_mul by lia. lia.
  - intros x. rewrite (length_flat_map_const _ _ (Z.to_nat k2)).
    + now rewrite length_pyrange.
    + intros y. now rewrite length_map, length_pyrange.
Qed.

Lemma pyrange_pos (k : Z) : (1 <= k)%Z -> exists r, pyrange k = 0%Z :: r.
Proof.
  intros Hk. unfold pyrange. destruct (Z.to_nat k) eqn:E; [lia|].
  simpl. eexists. reflexivity.
Qed.

Lemma veqb_refl (a : vec3) : veqb a a = true.
Proof.
  destruct a as [[x y] z]. unfold veqb. rewrite !andb_true_iff, !Qeq_bool_iff.
  repeat split; reflexivity.
Qed.

Lemma veqb_list_refl (l : list vec3) : veqb_list l l = true.
Proof. induction l; simpl; [reflexivity|]. now rewrite veqb_refl, IHl. Qed.

Lemma veqb_offset0 (cell : cell3) (x : vec3) : veqb (vadd x (offset (0, 0, 0)%Z cell)) x = true.
Proof.
  destruct x as [[a b] c], cell as [[[[x0 y0] z0] [[x1 y1] z1]] [[x2 y2] z2]].
  unfold veqb, vadd, offset, vscale, vadd. rewrite !andb_true_iff, !Qeq_bool_iff.
  cbn [inject_Z]. repeat split; ring.
Qed.

(** C6: [repeat(m, cell)] with [m = (m0, m1, m2)], all [m_i >= 0], makes
    the positions [m0 * m1 * m2] copies of the [n] sites, the copy for the
    loop triple [(a, b, c)] (in nested-loop order) translated by
    [a cell_0 + b cell_1 + c cell_2] with the sites' order kept, the first
    copy (triple [(0, 0, 0)] when all [m_i >= 1]) being the sites
    themselves; on the 2-site collection [[0,0,0], [0.5,0,0]] with
    [m = (2,1,1)] and the identity cell, [Batom.repeat] succeeds and the
    collection's positions become [[0,0,0], [0.5,0,0], [1,0,0], [1.5,0,0]]. *)
Theorem repeat_replicates (p : list vec3) (cell : cell3) (k0 k1 k2 : Z)
    (H0 : (0 <= k0)%Z) (H1 : (0 <= k1)%Z) (H2 : (0 <= k2)%Z) :
  repeat_positions p (k0, k1, k2) cell =
    Ok (List.concat (map (fun t => map (fun x => vadd x (offset t cell)) p) (triples (k0, k1, k2)))) /\
  List.length (triples (k0, k1, k2)) = Z.to_nat (k0 * k1 * k2) /\
  ((1 <= k0)%Z -> (1 <= k1)%Z -> (1 <= k2)%Z ->
   exists rest, triples (k0, k1, k2) = (0, 0, 0)%Z :: rest /\
     veqb_list (map (fun x => vadd x (offset (0, 0, 0)%Z cell)) p) p = true) /\
  fst (Batom_repeat w_C (M3 (2, 1, 1)%Z) cell_id scene_C2) = Ok tt /\
  match fst (get_positions w_C (snd (Batom_repeat w_C (M3 (2, 1, 1)%Z) cell_id scene_C2))) with
  | Ok q => veqb_list q [vzero; (1 # 2, 0, 0)%Q; (1, 0, 0)%Q; (3 # 2, 0, 0)%Q]
  | Err _ => false
  end = true.
Proof.
  pose proof (length_triples k0 k1 k2 H0 H1 H2) as Hlt.
  split; [|split; [exact Hlt|split; [|split; vm_compute; reflexivity]]].
  - unfold repeat_positions.
    replace (k0 * k1 * k2 <? 0)%Z with false by (symmetry; apply Z.ltb_ge; nia).
    rewrite <- Hlt.
    pose proof (fold_add_blocks p cell (triples (k0, k1, k2)) []) as Hf.
    cbn [app List.length] in Hf. rewrite Hf. reflexivity.
  - intros K0 K1 K2.
    destruct (pyrange_pos k0 K0) as [r0 E0], (pyrange_pos k1 K1) as [r1 E1],
      (pyrange_pos k2 K2) as [r2 E2].
    unfold triples. rewrite E0. cbn [flat_map]. rewrite E1. cbn [flat_map]. rewrite E2.
    cbn [map]. eexists. split; [reflexivity|].
    clear. induction p as [|x p IH]; cbn [map veqb_list]; [reflexivity|].
    now rewrite veqb_offset0, IH.
Qed.

Lemma repeat_replicates_witness :
  (0 <= 2)%Z /\ (0 <= 1)%Z /\
  repeat_positions [vzero; (1 # 2, 0, 0)%Q] (2, 1, 1)%Z cell_id =
    Ok (List.concat (map (fun t => map (fun x => vadd x (offset t cell_id)) [vzero; (1 # 2, 0, 0)%Q])
                       (triples (2, 1, 1)%Z))).
Proof.
  split; [lia|split; [lia|]].
  destruct (repeat_replicates [vzero; (1 # 2, 0, 0)%Q] cell_id 2 1 1) as [H _]; try lia.
  exact H.
Defined.

(** ** C7: the lattice check of repeat *)

Lemma axis_fail (x : Z) (c : vec3) :
  negb (negb (x =? 1)%Z && negb (vec_any c)) = false <-> x <> 1%Z /\ veqb c vzero = true.
Proof.
  rewrite <- Z.eqb_neq. destruct c as [[a b] d]. unfold vec_any, veqb, vzero.
  destruct (x =? 1)%Z, (Qeq_bool a 0), (Qeq_bool b 0), (Qeq_bool d 0); simpl;
    intuition congruence.
Qed.

(** C7 (as amended): the check of [Batom.repeat] fails exactly when some
    multiplicity DIFFERENT FROM 1 (0 and negative ones included, not only
    those greater than 1) is paired with a zero lattice vector; it runs
    before anything else, so the call then raises [ValueError] with the
    scene unchanged (no site added), for a triple and for an int [k] taken
    as [(k, k, k)]. *)
Theorem repeat_undefined_lattice (m : Z * Z * Z) (cell : cell3) :
  (repeat_check m cell = false <->
     let '(m0, m1, m2) := m in
     let '(c0, c1, c2) := cell in
     Exists (fun p => fst p <> 1%Z /\ veqb (snd p) vzero = true) [(m0, c0); (m1, c1); (m2, c2)]) /\
  (forall w st, repeat_check m cell = false -> Batom_repeat w (M3 m) cell st = (Err ValueError, st)) /\
  (forall w k st, repeat_check (k, k, k) cell = false ->
     Batom_repeat w (MInt k) cell st = (Err ValueError, st)).
Proof.
  split; [|split].
  - destruct m as [[m0 m1] m2], cell as [[c0 c1] c2]. unfold repeat_check.
    cbn [forallb fst snd]. rewrite !Exists_cons, Exists_nil. cbn [fst snd].
    rewrite andb_true_r, !Bool.andb_false_iff, !axis_fail. tauto.
  - intros w st H. unfold Batom_repeat. cbv beta iota zeta. rewrite H. reflexivity.
  - intros w k st H. unfold Batom_repeat. cbv beta iota zeta. rewrite H. reflexivity.
Qed.

(** C7, counterexample: multiplicities [(0, 1, 1)] ask for no repetition
    greater than 1, yet with a zero first lattice vector [Batom.repeat]
    raises [ValueError]. *)
Lemma repeat_zero_multiplicity_raises :
  Forall (fun x => (x <= 1)%Z) [0%Z; 1%Z; 1%Z] /\
  veqb (fst (fst cell_x0)) vzero = true /\
  Batom_repeat w_C (M3 (0, 1, 1)%Z) cell_x0 scene_C2 = (Err ValueError, scene_C2).
Proof.
  split; [repeat constructor; lia|]. split; [reflexivity|].
  unfold Batom_repeat. cbv beta iota zeta.
  replace (repeat_check (0, 1, 1)%Z cell_x0) with false by reflexivity. reflexivity.
Qed.

(** ** C8: deletion keeps the order of the remaining sites *)

Lemma drop_indices_nth_from {A} (f : nat -> bool) (l : list A) (d : A) (s : nat) :
  map snd (filter (fun p => f (fst p)) (combine (seq s (List.length l)) l)) =
  map (fun i => nth (i - s) l d) (filter f (seq s (List.length l))).
Proof.
  revert s; induction l as [|a l IH]; intros s; [reflexivity|].
  cbn [List.length seq combine filter fst].
  assert (Hr : map (fun i => nth (i - s) (a :: l) d) (filter f (seq (S s) (List.length l))) =
               map (fun i => nth (i - S s) l d) (filter f (seq (S s) (List.length l)))).
  { apply map_ext_in. intros i Hi. apply filter_In in Hi as [Hi _].
    apply in_seq in Hi. replace (i - s)%nat with (S (i - S s)) by lia. reflexivity. }
  destruct (f s); cbn [map snd]; rewrite IH, Hr; [|reflexivity].
  now rewrite Nat.sub_diag.
Qed.

Lemma drop_indices_nth {A} (sel : list nat) (l : list A) (d : A) :
  drop_indices sel l =
  map (fun i => nth i l d) (filter (fun i => negb (existsb (Nat.eqb i) sel)) (seq 0 (List.length l))).
Proof.
  unfold drop_indices.
  rewrite (drop_indices_nth_from (fun i => negb (existsb (Nat.eqb i) sel)) l d 0).
  apply map_ext. intros i. now rewrite Nat.sub_0_r.
Qed.

Lemma py_dict_get_none {V} (d : pydict V) k : ~ In k (map fst d) -> py_dict_get d k = None.
Proof.
  induction d as [|[k' v] d IH]; simpl; intros H; [reflexivity|].
  destruct (String.eqb_spec k k') as [->|_]; [tauto|]. apply IH. tauto.
Qed.

Lemma py_dict_get_del_neq {V} (d : pydict V) k k' :
  k <> k' -> py_dict_get (py_dict_del d k') k = py_dict_get d k.
Proof.
  intros Hk. induction d as [|[k0 v] d IH]; simpl; [reflexivity|].
  destruct (String.eqb_spec k' k0) as [<-|_].
  - apply String.eqb_neq in Hk. now rewrite Hk.
  - simpl. now rewrite IH.
Qed.

Lemma py_dict_del_keys {V} (d : pydict V) k x :
  In x (map fst (py_dict_del d k)) -> In x (map fst d).
Proof.
  induction d as [|[k0 v] d IH]; simpl; [tauto|].
  destruct (String.eqb k k0); simpl; tauto.
Qed.

Lemma py_dict_del_nodup {V} (d : pydict V) k :
  NoDup (map fst d) -> NoDup (map fst (py_dict_del d k)).
Proof.
  induction d as [|[k0 v] d IH]; simpl; intros Hnd; [constructor|].
  inversion Hnd as [|? ? Hn Hd]; subst.
  destruct (String.eqb k k0); simpl; [assumption|].
  constructor; [|now apply IH]. intros Hin. apply Hn. eapply py_dict_del_keys; eauto.
Qed.

Lemma py_dict_get_del_eq {V} (d : pydict V) k :
  NoDup (map fst d) -> py_dict_get (py_dict_del d k) k = None.
Proof.
  induction d as [|[k0 v] d IH]; simpl; intros Hnd; [reflexivity|].
  inversion Hnd as [|? ? Hn Hd]; subst.
  destruct (String.eqb_spec k k0) as [<-|Hk].
  - now apply py_dict_get_none.
  - simpl. apply String.eqb_neq in Hk. rewrite Hk. now apply IH.
Qed.

Lemma Batom_delete_ints (w : batom) (idx : list Z) :
  idx <> [] -> Batom_delete w (ISeq (map VInt idx)) = delete_verts w idx.
Proof.
  destruct idx as [|i idx]; [contradiction|]. intros _.
  unfold Batom_delete, delete_with. cbn [map]. f_equal.
  rewrite map_map. cbn [pyval_int]. f_equal. apply map_id.
Qed.

(** C8: deleting the sites at a non-empty list of valid indices [idx]
    (resolved to vertex positions [sel]) leaves the sites at the positions
    not in [sel], in increasing order of their old index (so renumbered
    [0, 1, ...] by their place in the list); if some site remains, the
    object's vertices and every shape-key layer become that list and the
    rest of the scene is kept; if none remains, the instance object and the
    object itself are removed from the scene, every other object kept.  On
    the 3-site collection [[A, B, C]], [delete([1])] leaves [[A, C]]. *)
Theorem delete_keeps_order (w : batom) (st : scene) (b : batom_obj) (idx : list Z) (sel : list nat)
    (Hne : idx <> [])
    (Hobj : py_dict_get (sc_objects st) (obj_name w) = Some (SBatom b))
    (Hsel : bm_indices (List.length (bo_verts b)) idx = Ok sel) :
  drop_indices sel (bo_verts b) =
    map (fun i => nth i (bo_verts b) vzero)
      (filter (fun i => negb (existsb (Nat.eqb i) sel)) (seq 0 (List.length (bo_verts b)))) /\
  (drop_indices sel (bo_verts b) <> [] ->
   exists b', Batom_delete w (ISeq (map VInt idx)) st =
     (Ok tt, mk_scene (py_dict_set (sc_objects st) (obj_name w) (SBatom b')) (sc_materials st)) /\
     bo_verts b' = drop_indices sel (bo_verts b) /\
     bo_shape_keys b' = map (fun sk => (fst sk, drop_indices sel (snd sk))) (bo_shape_keys b) /\
     bo_species b' = bo_species b /\ bo_label b' = bo_label b /\
     bo_elements b' = bo_elements b /\ bo_world b' = bo_world b) /\
  (drop_indices sel (bo_verts b) = [] ->
   NoDup (map fst (sc_objects st)) -> instancer_name w <> obj_name w ->
   py_dict_get (sc_objects st) (instancer_name w) <> None ->
   exists st', Batom_delete w (ISeq (map VInt idx)) st = (Ok tt, st') /\
     py_dict_get (sc_objects st') (obj_name w) = None /\
     py_dict_get (sc_objects st') (instancer_name w) = None /\
     (forall k, k <> obj_name w -> k <> instancer_name w ->
        py_dict_get (sc_objects st') k = py_dict_get (sc_objects st) k)) /\
  fst (Batom_delete w_C (ISeq [VInt 1]) scene_ABC) = Ok tt /\
  match fst (get_positions w_C (snd (Batom_delete w_C (ISeq [VInt 1]) scene_ABC))) with
  | Ok q => veqb_list q [site_A; site_C]
  | Err _ => false
  end = true.
Proof.
  rewrite (Batom_delete_ints w idx Hne).
  split; [apply drop_indices_nth|].
  split; [|split; [|split; vm_compute; reflexivity]].
  - intros Hr.
    exists (mk_batom_obj (bo_species b) (bo_label b) (bo_elements b) (drop_indices sel (bo_verts b))
              (bo_world b) (map (fun sk => (fst sk, drop_indices sel (snd sk))) (bo_shape_keys b)) (bo_key_anim b)).
    split.
    + unfold delete_verts, get_obj, bind, get_scene. rewrite Hobj. cbn [ret lift].
      rewrite Hsel. cbn [lift ret].
      destruct (drop_indices sel (bo_verts b)) as [|v vs]; [contradiction|].
      unfold put_obj, bind, get_scene, put_scene. reflexivity.
    + cbn. repeat split.
  - intros Hr Hnd Hn Hinst.
    unfold delete_verts, get_obj, bind, get_scene. rewrite Hobj. cbn [ret lift].
    rewrite Hsel. cbn [lift ret]. rewrite Hr.
    unfold remove_object, bind, get_scene.
    destruct (py_dict_get (sc_objects st) (instancer_name w)) as [oi|] eqn:Ei; [|contradiction].
    unfold put_scene. cbn [sc_objects sc_materials].
    rewrite (py_dict_get_del_neq _ _ _ (not_eq_sym Hn)), Hobj.
    eexists. split; [reflexivity|]. cbn [sc_objects].
    split; [|split].
    + apply py_dict_get_del_eq. now apply py_dict_del_nodup.
    + rewrite py_dict_get_del_neq by exact Hn. now apply py_dict_get_del_eq.
    + intros k Hk1 Hk2. rewrite !py_dict_get_del_neq by assumption. reflexivity.
Qed.

Lemma delete_keeps_order_witness :
  exists b, py_dict_get (sc_objects scene_ABC) (obj_name w_C) = Some (SBatom b) /\
    bm_indices (List.length (bo_verts b)) [1%Z] = Ok [1%nat] /\
    drop_indices [1%nat] (bo_verts b) =
      map (fun i => nth i (bo_verts b) vzero)
        (filter (fun i => negb (existsb (Nat.eqb i) [1%nat])) (seq 0 (List.length (bo_verts b)))).
Proof.
  eexists. split; [reflexivity|]. split; [reflexivity|].
  match goal with
  | |- drop_indices _ (bo_verts ?b) = _ =>
      exact (proj1 (delete_keeps_order w_C scene_ABC b [1%Z] [1%nat]
                      ltac:(discriminate) eq_refl eq_refl))
  end.
Defined.

(** * Further properties of batom.py *)

(** ** [check_elements]: the table it returns is normalised *)




(** ** [main_element] never names the vacancy *)

(** Whatever the element collection, [main_element] never returns the
    vacancy symbol ["X"]: [get_elements] has no repeated key, so when the
    first sorted entry is ["X"] the second one is another element. *)
Theorem main_element_not_vacancy (coll : list eledata) (e : string) :
  main_element coll = Ok e -> e <> vacancy.
Proof.
  unfold main_element.
  pose proof (Permutation_NoDup (Permutation_sym (Permutation_map fst (sort_desc_perm (get_elements coll))))
                (get_elements_nodup coll)) as Hnd.
  destruct (sort_desc (get_elements coll)) as [|[e0 v0] rest]; [discriminate|].
  destruct (String.eqb_spec e0 vacancy) as [He0|He0].
  - destruct rest as [|[e1 v1] rest]; [discriminate|].
    intros H. injection H as <-. simpl in Hnd. inversion Hnd as [|? ? Hn _]; subst.
    intros Heq. apply Hn. left. congruence.
  - intros H. now injection H as <-.
Qed.

Lemma main_element_not_vacancy_witness :
  main_element [mk_eledata "X" (1 # 2); mk_eledata "Fe" (2 # 5)] = Ok "Fe"%string /\
  "Fe"%string <> vacancy.
Proof.
  assert (H : main_element [mk_eledata "X" (1 # 2); mk_eledata "Fe" (2 # 5)] = Ok "Fe"%string)
    by reflexivity.
  split; [exact H|]. exact (main_element_not_vacancy _ _ H).
Defined.

(** ** [assign_materials]: face indices stay valid slot numbers *)

Lemma wedge_face_range i rest tos a j :
  wedge_face i rest tos a j = j \/
  (i <= wedge_face i rest tos a j < i + Z.of_nat (List.length rest))%Z.
Proof.
  revert i tos j. induction rest as [|[e occ] rest IH]; intros i tos j; [now left|].
  cbn [wedge_face List.length].
  set (j' := if Rlt_dec tos a then if Rlt_dec a (tos + Q2R occ)%R then i else j else j).
  assert (Hj' : j' = j \/ j' = i) by (subst j'; destruct (Rlt_dec tos a);
    [destruct (Rlt_dec a (tos + Q2R occ)%R)|]; auto).
  destruct (IH (i + 1)%Z (tos + Q2R occ)%R j') as [H|H].
  - rewrite H. destruct Hj' as [->| ->]; [now left|right; lia].
  - right. lia.
Qed.

Lemma length_zipmap {A B} (f : A -> B -> B) as_ bs :
  List.length (zipmap f as_ bs) = List.length bs.
Proof.
  revert bs; induction as_ as [|a as_ IH]; intros [|b bs]; simpl; auto.
Qed.

Lemma Forall_zipmap {A B} (P : B -> Prop) (f : A -> B -> B) as_ bs :
  (forall a b, P b -> P (f a b)) -> Forall P bs -> Forall P (zipmap f as_ bs).
Proof.
  intros Hf. revert bs; induction as_ as [|a as_ IH]; intros bs Hbs; [exact Hbs|].
  destruct Hbs as [|b bs Hb Hbs]; simpl; [constructor|]. constructor; auto.
Qed.

(** For a non-empty element table, [assign_materials] leaves one material
    index per face, makes one material slot per element, and every face
    index names an existing slot, whatever indices the mesh had before. *)
Theorem assign_materials_index_range (els : pydict Q) (m : mesh)
    (Hne : els <> []) :
  List.length (m_material_index (assign_materials els m)) = List.length (m_normals m) /\
  List.length (m_materials (assign_materials els m)) = List.length els /\
  Forall (fun j => (0 <= j < Z.of_nat (List.length (m_materials (assign_materials els m))))%Z)
    (m_material_index (assign_materials els m)).
Proof.
  assert (Hlen : List.length (sort_desc els) = List.length els)
    by (apply Permutation_length, sort_desc_perm).
  assert (Hsl : List.length (map fst (sort_desc els)) = List.length els)
    by now rewrite length_map.
  assert (Hpos : (1 <= List.length els)%nat) by (destruct els; [contradiction|simpl; lia]).
  assert (H0 : Forall (fun j => (0 <= j < Z.of_nat (List.length els))%Z)
                 (List.repeat 0%Z (List.length (m_normals m)))).
  { apply Forall_forall. intros x Hx. apply repeat_spec in Hx. subst x. lia. }
  unfold assign_materials.
  destruct (Nat.ltb 1 (List.length (sort_desc els))) eqn:E;
    cbv beta iota zeta; cbn [m_materials m_normals m_material_index]; rewrite Hsl.
  - rewrite wedge_loop_zipmap, length_zipmap, repeat_length.
    split; [reflexivity|split; [reflexivity|]].
    apply Forall_zipmap; [|exact H0].
    intros a j Hj. destruct (wedge_face_range 1 (List.tl (sort_desc els)) 0 a j) as [H|H];
      [rewrite H; exact Hj|].
    apply Nat.ltb_lt in E. rewrite length_tl, Hlen in H. lia.
  - rewrite repeat_length. split; [reflexivity|split; [reflexivity|exact H0]].
Qed.

Lemma assign_materials_index_range_witness :
  [("A"%string, 3 # 4); ("B"%string, 1 # 4)] <> [] /\
  List.length (m_materials (assign_materials [("A"%string, 3 # 4); ("B"%string, 1 # 4)]
                              (mk_mesh [((-1)%R, (-1)%R, 0%R)] [7%Z] []))) = 2%nat.
Proof.
  assert (H : [("A"%string, 3 # 4); ("B"%string, 1 # 4)] <> []) by discriminate.
  split; [exact H|].
  exact (proj1 (proj2 (assign_materials_index_range _ (mk_mesh [((-1)%R, (-1)%R, 0%R)] [7%Z] []) H))).
Defined.

(** ** [build_material]: one material per element, never twice *)

Lemma build_material_fold (label species : string) (colors acc : list string) :
  NoDup acc ->
  let r := fold_left (fun acc ele =>
             let name := material_name label species ele in
             if existsb (String.eqb name) acc then acc else acc ++ [name]) colors acc in
  (exists extra, r = acc ++ extra) /\ NoDup r /\
  (forall x, In x r <-> In x acc \/ exists ele, In ele colors /\ x = material_name label species ele).
Proof.
  cbv zeta. revert acc; induction colors as [|c colors IH]; intros acc Hacc; cbn [fold_left].
  - split; [exists []; now rewrite app_nil_r|split; [exact Hacc|]].
    intros x. split; [now left|intros [H|[ele [[] _]]]; exact H].
  - set (name := material_name label species c).
    assert (Hstep : NoDup (if existsb (String.eqb name) acc then acc else acc ++ [name]) /\
                    (forall x, In x (if existsb (String.eqb name) acc then acc else acc ++ [name]) <->
                               In x acc \/ x = name) /\
                    exists e1, (if existsb (String.eqb name) acc then acc else acc ++ [name]) = acc ++ e1).
    { destruct (existsb (String.eqb name) acc) eqn:Ex.
      - apply existsb_exists in Ex as [y [Hy Hyn]]. apply String.eqb_eq in Hyn. subst y.
        split; [exact Hacc|split; [intros x; split; [now left|intros [H| ->]; assumption]|]].
        exists []. now rewrite app_nil_r.
      - split; [|split; [intros x; rewrite in_app_iff; simpl; intuition|now exists [name]]].
        apply NoDup_app; [exact Hacc|repeat constructor; simpl; tauto|].
        intros x Hx [Heq|[]]. subst x. assert (Hf : existsb (String.eqb name) acc = true).
        { apply existsb_exists. exists name. split; [exact Hx|apply String.eqb_refl]. }
        congruence. }
    destruct Hstep as [Hnd [Hin [e1 He1]]].
    destruct (IH _ Hnd) as [[e2 He2] [Hnd2 Hin2]].
    split; [exists (e1 ++ e2); rewrite He2, He1; now rewrite app_assoc|split; [exact Hnd2|]].
    intros x. rewrite Hin2, Hin. split.
    + intros [[H|H]|[ele [He Hx]]]; [now left|right; exists c; split; [now left|exact H]|].
      right. exists ele. split; [now right|exact Hx].
    + intros [H|[ele [[<-|He] Hx]]]; [now left; left|now left; right|].
      right. exists ele. now split.
Qed.

(** [build_material] without a [materials] argument (as [set_elements]
    calls it) leaves the objects alone, only appends to the material list
    (no material is removed or reordered), never creates a name twice, and
    afterwards a material named [<label>_material_atom_<species>_<ele>]
    exists for every element [ele] of the species, and no other name has
    been added. *)
Theorem build_material_materials (label species : string) (colors : list string) (st : scene)
    (Hnd : NoDup (sc_materials st)) :
  fst (build_material label species colors None st) = Ok tt /\
  sc_objects (snd (build_material label species colors None st)) = sc_objects st /\
  (exists extra, sc_materials (snd (build_material label species colors None st)) = sc_materials st ++ extra) /\
  NoDup (sc_materials (snd (build_material label species colors None st))) /\
  (forall x, In x (sc_materials (snd (build_material label species colors None st))) <->
     In x (sc_materials st) \/ exists ele, In ele colors /\ x = material_name label species ele).
Proof.
  destruct (build_material_fold label species colors (sc_materials st) Hnd) as [H1 [H2 H3]].
  unfold build_material, bind, get_scene, put_scene. cbn [fst snd sc_objects sc_materials].
  split; [reflexivity|split; [reflexivity|]]. auto.
Qed.

Lemma build_material_materials_witness :
  NoDup (sc_materials scene0) /\
  sc_materials (snd (build_material "batoms" "Fe" ["Fe"%string; "X"%string] None scene0)) =
    sc_materials scene0 ++ ["batoms_material_atom_Fe_Fe"%string; "batoms_material_atom_Fe_X"%string].
Proof.
  assert (H : NoDup (sc_materials scene0)) by constructor.
  split; [exact H|].
  destruct (build_material_materials "batoms" "Fe" ["Fe"%string; "X"%string] scene0 H) as [_ [_ [_ _]]].
  reflexivity.
Defined.

(** ** [set_positions]: its checks, and what it changes *)

(** [set_positions] on an existing object: positions of the wrong length
    raise [ValueError], a singular placement makes the inversion raise; in
    both cases the scene is unchanged.  Otherwise only the object's vertex
    list changes: it becomes the positions mapped through the inverse
    placement, in single precision, while the elements, the placement and
    every shape-key layer are kept. *)
Theorem set_positions_effect (w : batom) (st : scene) (b : batom_obj) (p : list vec3)
    (Hobj : py_dict_get (sc_objects st) (obj_name w) = Some (SBatom b)) :
  (List.length p <> List.length (bo_verts b) -> set_positions w p st = (Err ValueError, st)) /\
  (List.length p = List.length (bo_verts b) -> forall e, affine_inv (bo_world b) = Err e ->
     set_positions w p st = (Err e, st)) /\
  (List.length p = List.length (bo_verts b) -> forall mi, affine_inv (bo_world b) = Ok mi ->
     set_positions w p st =
       (Ok tt, mk_scene (py_dict_set (sc_objects st) (obj_name w)
                  (SBatom (mk_batom_obj (bo_species b) (bo_label b) (bo_elements b)
                             (map (fun v => round32v (affine_apply mi v)) p)
                             (bo_world b) (bo_shape_keys b) (bo_key_anim b))))
                (sc_materials st))).
Proof.
  unfold set_positions, get_obj, bind, get_scene. rewrite Hobj. cbn [ret].
  split; [|split].
  - intros Hl. apply Nat.eqb_neq in Hl. rewrite Hl. reflexivity.
  - intros Hl e He. rewrite Hl, Nat.eqb_refl. cbn [negb].
    unfold local2global. rewrite He. reflexivity.
  - intros Hl mi Hmi. rewrite Hl, Nat.eqb_refl. cbn [negb].
    unfold local2global. rewrite Hmi. cbn [lift ret].
    unfold put_obj, bind, get_scene, put_scene. now rewrite map_map.
Qed.

Lemma set_positions_effect_witness :
  exists b, py_dict_get (sc_objects scene_C2) (obj_name w_C) = Some (SBatom b) /\
    set_positions w_C [vzero] scene_C2 = (Err ValueError, scene_C2).
Proof.
  eexists. split; [reflexivity|].
  eapply (proj1 (set_positions_effect w_C scene_C2 _ [vzero] eq_refl)).
  simpl. discriminate.
Defined.

(** ** [delete]: indices out of range, and negative ones *)

Lemma bm_index_bad (n : nat) (i : Z) :
  (i < - Z.of_nat n \/ Z.of_nat n <= i)%Z -> bm_index n i = Err IndexError.
Proof.
  intros H. unfold bm_index.
  destruct (Z.ltb_spec i 0).
  - replace ((0 <=? i + Z.of_nat n) && (i + Z.of_nat n <? Z.of_nat n))%Z with false; [reflexivity|].
    symmetry. apply andb_false_iff. destruct H; [left; apply Z.leb_gt|right; apply Z.ltb_ge]; lia.
  - replace ((0 <=? i) && (i <? Z.of_nat n))%Z with false; [reflexivity|].
    symmetry. apply andb_false_iff. right. apply Z.ltb_ge. lia.
Qed.

Lemma bm_index_good (n : nat) (i : Z) :
  (- Z.of_nat n <= i < Z.of_nat n)%Z ->
  bm_index n i = Ok (Z.to_nat (if (i <? 0)%Z then i + Z.of_nat n else i)).
Proof.
  intros H. unfold bm_index.
  destruct (Z.ltb_spec i 0).
  - replace ((0 <=? i + Z.of_nat n) && (i + Z.of_nat n <? Z.of_nat n))%Z with true; [reflexivity|].
    symmetry. apply andb_true_iff. split; [apply Z.leb_le|apply Z.ltb_lt]; lia.
  - replace ((0 <=? i) && (i <? Z.of_nat n))%Z with true; [reflexivity|].
    symmetry. apply andb_true_iff. split; [apply Z.leb_le|apply Z.ltb_lt]; lia.
Qed.

Lemma bm_indices_bad (n : nat) (idx : list Z) :
  Exists (fun i => i < - Z.of_nat n \/ Z.of_nat n <= i)%Z idx -> bm_indices n idx = Err IndexError.
Proof.
  induction 1 as [i idx H|i idx H IH]; simpl.
  - now rewrite (bm_index_bad n i H).
  - rewrite IH. destruct (bm_index n i) eqn:Hi; [reflexivity|].
    unfold bm_index in Hi. destruct (_ && _); congruence.
Qed.

Lemma bm_indices_good (n : nat) (idx : list Z) :
  Forall (fun i => - Z.of_nat n <= i < Z.of_nat n)%Z idx ->
  bm_indices n idx = Ok (map (fun i => Z.to_nat (if (i <? 0)%Z then i + Z.of_nat n else i)) idx).
Proof.
  induction 1 as [|i idx H _ IH]; simpl; [reflexivity|].
  now rewrite (bm_index_good n i H), IH.
Qed.

(** [delete] with a list of ints: if one of them is out of range for the
    collection (below [-n] or at least [n]), it raises [IndexError] before
    anything is deleted, the scene unchanged; if all are in range, a
    negative index [i] stands for the vertex [n + i], so [delete([-1])]
    deletes the last site. *)
Theorem delete_index_range (w : batom) (st : scene) (b : batom_obj) (idx : list Z)
    (Hne : idx <> [])
    (Hobj : py_dict_get (sc_objects st) (obj_name w) = Some (SBatom b)) :
  (Exists (fun i => i < - Z.of_nat (List.length (bo_verts b)) \/
                    Z.of_nat (List.length (bo_verts b)) <= i)%Z idx ->
   Batom_delete w (ISeq (map VInt idx)) st = (Err IndexError, st)) /\
  (Forall (fun i => - Z.of_nat (List.length (bo_verts b)) <= i < Z.of_nat (List.length (bo_verts b)))%Z idx ->
   bm_indices (List.length (bo_verts b)) idx =
     Ok (map (fun i => Z.to_nat (if (i <? 0)%Z then i + Z.of_nat (List.length (bo_verts b)) else i)) idx)).
Proof.
  split.
  - intros Hx. rewrite (Batom_delete_ints w idx Hne).
    unfold delete_verts, get_obj, bind, get_scene. rewrite Hobj. cbn [ret].
    rewrite (bm_indices_bad _ _ Hx). reflexivity.
  - apply bm_indices_good.
Qed.

Lemma delete_index_range_witness :
  exists b, py_dict_get (sc_objects scene_ABC) (obj_name w_C) = Some (SBatom b) /\
    Batom_delete w_C (ISeq [VInt 3]) scene_ABC = (Err IndexError, scene_ABC).
Proof.
  eexists. split; [reflexivity|].
  refine (proj1 (delete_index_range w_C scene_ABC _ [3%Z] _ eq_refl) _).
  - discriminate.
  - constructor. simpl. lia.
Defined.

(** ** [delete] with a boolean mask *)









(** ** Shape-key layers stay aligned with the vertices *)

Lemma bind_run {A B} (m : M A) (k : A -> M B) (st : scene) :
  bind m k st = match m st with (Ok a, s') => k a s' | (Err e, s') => (Err e, s') end.
Proof. reflexivity. Qed.

Lemma get_obj_run (w : batom) (st : scene) :
  get_obj w st = match py_dict_get (sc_objects st) (obj_name w) with
                 | Some (SBatom b) => (Ok b, st)
                 | _ => (Err KeyError, st)
                 end.
Proof.
  unfold get_obj, bind, get_scene.
  destruct (py_dict_get (sc_objects st) (obj_name w)) as [[]|]; reflexivity.
Qed.

Lemma Forall_py_dict_set {V} (P : V -> Prop) (d : pydict V) k v :
  Forall (fun kv => P (snd kv)) d -> P v -> Forall (fun kv => P (snd kv)) (py_dict_set d k v).
Proof.
  intros Hd Hv. induction Hd as [|[k' v'] d H1 H2 IH]; cbn [py_dict_set].
  - constructor; auto.
  - destruct (String.eqb k k'); constructor; auto.
Qed.

Lemma Forall_py_dict_del {V} (P : V -> Prop) (d : pydict V) k :
  Forall (fun kv => P (snd kv)) d -> Forall (fun kv => P (snd kv)) (py_dict_del d k).
Proof.
  induction 1 as [|[k' v'] d H1 H2 IH]; cbn [py_dict_del]; [constructor|].
  destruct (String.eqb k k'); auto.
Qed.

Lemma py_dict_get_Forall {V} (P : V -> Prop) (d : pydict V) k v :
  Forall (fun kv => P (snd kv)) d -> py_dict_get d k = Some v -> P v.
Proof.
  induction 1 as [|[k' v'] d H1 H2 IH]; cbn [py_dict_get]; [discriminate|].
  destruct (String.eqb k k'); [intros E; injection E as <-; exact H1|exact IH].
Qed.

Lemma ka_ret {A} (a : A) : keeps_aligned (ret a).
Proof. intros st H. exact H. Qed.

Lemma ka_raise {A} (e : exn) : keeps_aligned (@raise A e).
Proof. intros st H. exact H. Qed.

Lemma ka_lift {A} (r : result A) : keeps_aligned (lift r).
Proof. destruct r; [apply ka_ret|apply ka_raise]. Qed.

Lemma ka_bind {A B} (m : M A) (k : A -> M B) :
  keeps_aligned m -> (forall a, keeps_aligned (k a)) -> keeps_aligned (bind m k).
Proof.
  intros Hm Hk st H. rewrite bind_run. specialize (Hm st H).
  destruct (m st) as [[a|e] s']; cbn [snd] in *; [exact (Hk a s' Hm)|exact Hm].
Qed.

Lemma ka_bind_lift {A B} (r : result A) (k : A -> M B) :
  (forall a, r = Ok a -> keeps_aligned (k a)) -> keeps_aligned (bind (lift r) k).
Proof.
  intros Hk st H. rewrite bind_run. destruct r as [a|e]; cbn [lift ret raise snd]; auto.
  now apply Hk.
Qed.

Lemma ka_bind_scene {B} (k : scene -> M B) :
  (forall s, scene_aligned s -> scene_aligned (snd (k s s))) -> keeps_aligned (bind get_scene k).
Proof. intros Hk st H. exact (Hk st H). Qed.

Lemma ka_get_obj {B} (w : batom) (k : batom_obj -> M B) :
  (forall b, keys_aligned b -> keeps_aligned (k b)) -> keeps_aligned (bind (get_obj w) k).
Proof.
  intros Hk st H. rewrite bind_run, get_obj_run.
  destruct (py_dict_get (sc_objects st) (obj_name w)) as [[b| |]|] eqn:E; cbn [snd]; auto.
  apply Hk; [|exact H].
  exact (py_dict_get_Forall obj_aligned _ _ _ H E).
Qed.

Lemma ka_put_obj (w : batom) (b : batom_obj) : keys_aligned b -> keeps_aligned (put_obj w b).
Proof.
  intros Hb st H. unfold put_obj, bind, get_scene, put_scene. cbn [snd].
  unfold scene_aligned. cbn [sc_objects]. now apply Forall_py_dict_set.
Qed.

Lemma ka_remove_object (name : string) : keeps_aligned (remove_object name).
Proof.
  apply ka_bind_scene. intros s Hs.
  destruct (py_dict_get (sc_objects s) name); cbn [snd put_scene raise]; [|exact Hs].
  now apply Forall_py_dict_del.
Qed.

Lemma ka_copy_materials (label : string) (ms : pydict (option string)) :
  keeps_aligned (copy_materials label ms).
Proof.
  induction ms as [|[name [mat|]] ms IH]; cbn [copy_materials]; [apply ka_ret| |apply ka_raise].
  apply ka_bind_scene. intros s Hs. rewrite bind_run. cbn [put_scene]. apply IH. exact Hs.
Qed.

Lemma ka_build_material (label species : string) (colors : list string)
    (materials : option (pydict (option string))) :
  keeps_aligned (build_material label species colors materials).
Proof.
  apply ka_bind; [destruct materials; [apply ka_copy_materials|apply ka_ret]|intros _].
  apply ka_bind_scene. intros s Hs. exact Hs.
Qed.

Lemma length_drop_from {A} (f : nat -> bool) (l : list A) (s : nat) :
  List.length (map snd (filter (fun p => f (fst p)) (combine (seq s (List.length l)) l))) =
  List.length (filter f (seq s (List.length l))).
Proof.
  revert s; induction l as [|x l IH]; intros s; [reflexivity|].
  cbn [List.length seq combine filter fst].
  destruct (f s); cbn [map List.length]; rewrite IH; reflexivity.
Qed.

Lemma length_drop_indices_eq {A B} (sel : list nat) (l1 : list A) (l2 : list B) :
  List.length l1 = List.length l2 ->
  List.length (drop_indices sel l1) = List.length (drop_indices sel l2).
Proof.
  intros Hl. unfold drop_indices.
  rewrite (length_drop_from (fun i => negb (existsb (Nat.eqb i) sel)) l1 0).
  rewrite (length_drop_from (fun i => negb (existsb (Nat.eqb i) sel)) l2 0).
  now rewrite Hl.
Qed.

Lemma ka_delete_verts (w : batom) (idx : list Z) : keeps_aligned (delete_verts w idx).
Proof.
  apply ka_get_obj. intros b Hb. apply ka_bind_lift. intros sel _. cbv zeta.
  destruct (drop_indices sel (bo_verts b)) as [|v vs] eqn:E.
  - apply ka_bind; [apply ka_remove_object|intros _; apply ka_remove_object].
  - apply ka_put_obj. unfold keys_aligned in *. cbn [bo_shape_keys bo_verts].
    apply Forall_map. refine (Forall_impl _ _ Hb). intros sk Hsk. cbn [snd].
    rewrite <- E. now apply length_drop_indices_eq.
Qed.

Lemma ka_Batom_delete (w : batom) (index : index_arg) : keeps_aligned (Batom_delete w index).
Proof.
  unfold Batom_delete, delete_with.
  destruct index as [z|[|[z|bb] l]]; try apply ka_raise; apply ka_delete_verts.
Qed.

Lemma ka_set_positions (w : batom) (p : list vec3) : keeps_aligned (set_positions w p).
Proof.
  apply ka_get_obj. intros b Hb. cbv zeta.
  destruct (negb (Nat.eqb (List.length p) (List.length (bo_verts b)))) eqn:E; [apply ka_raise|].
  apply negb_false_iff, Nat.eqb_eq in E.
  apply ka_bind_lift. intros loc Hl. apply ka_put_obj.
  unfold local2global in Hl. destruct (affine_inv (bo_world b)); [|discriminate].
  injection Hl as <-. unfold keys_aligned in *. cbn [bo_shape_keys bo_verts].
  rewrite !length_map, E. exact Hb.
Qed.

Lemma ka_add_vertices (w : batom) (ps : list vec3) : keeps_aligned (add_vertices w ps).
Proof.
  apply ka_get_obj. intros b Hb. apply ka_put_obj.
  unfold keys_aligned in *. cbn [bo_shape_keys bo_verts].
  apply Forall_map. refine (Forall_impl _ _ Hb). intros sk Hsk. cbn [snd].
  rewrite !length_app. lia.
Qed.

Lemma fold_result_inv {B} (P : batom_obj -> Prop)
    (step : result batom_obj -> B -> result batom_obj) :
  (forall b i b', P b -> step (Ok b) i = Ok b' -> P b') ->
  (forall e i, step (Err e) i = Err e) ->
  forall l b b', P b -> fold_left step l (Ok b) = Ok b' -> P b'.
Proof.
  intros Hs He. induction l as [|i l IH]; intros b b' Hb Hf; cbn [fold_left] in Hf.
  - injection Hf as <-. exact Hb.
  - destruct (step (Ok b) i) as [b1|e] eqn:E.
    + exact (IH b1 b' (Hs b i b1 Hb E) Hf).
    + exfalso.
      assert (Hfe : forall l' e', fold_left step l' (Err e') = Err e').
      { induction l' as [|j l' IHl]; intros e'; cbn [fold_left]; [reflexivity|].
        now rewrite He. }
      rewrite Hfe in Hf. discriminate.
Qed.

Lemma keys_aligned_shape_key_add (b : batom_obj) (name : string) :
  keys_aligned b -> keys_aligned (shape_key_add b name).
Proof.
  unfold keys_aligned, shape_key_add. cbn [bo_shape_keys bo_verts]. intros Hb.
  apply Forall_app. split; [exact Hb|]. constructor; [reflexivity|constructor].
Qed.

Lemma keys_aligned_set_key_data (b : batom_obj) (name : string) (fr : list vec3) :
  keys_aligned b -> List.length fr = List.length (bo_verts b) ->
  keys_aligned (set_key_data b name fr).
Proof.
  unfold keys_aligned, set_key_data. cbn [bo_shape_keys bo_verts]. intros Hb Hfr.
  apply Forall_map. refine (Forall_impl _ _ Hb). intros sk Hsk.
  destruct (String.eqb (fst sk) name); cbn [snd]; [rewrite length_map|]; assumption.
Qed.

(** The loop of [set_frames] keeps the vertices and the alignment, also
    when it stops on a frame of the wrong size. *)
Lemma set_frames_loop_aligned (frames : list (list vec3)) (nframe nvert : nat) (fs : Z)
    (is : list nat) (b : batom_obj) :
  keys_aligned b -> List.length (bo_verts b) = nvert ->
  keys_aligned (fst (set_frames_loop frames nframe nvert fs is b)) /\
  bo_verts (fst (set_frames_loop frames nframe nvert fs is b)) = bo_verts b.
Proof.
  revert b; induction is as [|i is IH]; intros b Hb Hn; [split; [exact Hb|reflexivity]|].
  cbn [set_frames_loop].
  set (b1 := if has_key b (string_of_nat i) then b else shape_key_add b (string_of_nat i)).
  assert (Hb1 : keys_aligned b1 /\ bo_verts b1 = bo_verts b).
  { unfold b1. destruct (has_key b (string_of_nat i)); [auto|].
    split; [now apply keys_aligned_shape_key_add|reflexivity]. }
  destruct Hb1 as [Ha Hv].
  destruct (Nat.eqb_spec (List.length (nth i frames [])) nvert) as [Hl|Hl];
    cbn [negb]; [|split; [exact Ha|exact Hv]].
  set (b2 := set_key_data b1 (string_of_nat i) (nth i frames [])).
  assert (Hb2 : keys_aligned b2 /\ bo_verts b2 = bo_verts b).
  { split; [apply keys_aligned_set_key_data; [exact Ha|rewrite Hv, Hn; exact Hl]|exact Hv]. }
  destruct Hb2 as [Ha2 Hv2].
  match goal with |- context [set_frames_loop _ _ _ _ is ?b3] =>
    assert (Hb3 : keys_aligned b3 /\ bo_verts b3 = bo_verts b) end.
  { destruct (negb _); exact (conj Ha2 Hv2). }
  destruct Hb3 as [Ha3 Hv3].
  assert (Hn3 : List.length (bo_verts (if negb (i =? nframe - 1)%nat
     then add_keyframe_to_shape_key b2 (string_of_nat i) [0%Q; 1%Q; 0%Q]
            [(fs + Z.of_nat i - 1)%Z; (fs + Z.of_nat i)%Z; (fs + Z.of_nat i + 1)%Z]
     else add_keyframe_to_shape_key b2 (string_of_nat i) [0%Q; 1%Q]
            [(fs + Z.of_nat i - 1)%Z; (fs + Z.of_nat i)%Z])) = nvert) by (rewrite Hv3; exact Hn).
  destruct (IH _ Ha3 Hn3) as [H1 H2]. split; [exact H1|congruence].
Qed.

Lemma ka_set_frames (w : batom) (frames : list (list vec3)) (fs : Z) (only_basis : bool) :
  keeps_aligned (set_frames w frames fs only_basis).
Proof.
  unfold set_frames. destruct frames as [|f0 frs]; [apply ka_ret|].
  apply ka_get_obj. intros b Hb. cbv zeta.
  set (b0 := if has_key b ("Basis_" ++ bo_species b)%string then b
             else shape_key_add b ("Basis_" ++ bo_species b)%string).
  assert (Hb0 : keys_aligned b0).
  { unfold b0. destruct (has_key b ("Basis_" ++ bo_species b)%string);
      [exact Hb|now apply keys_aligned_shape_key_add]. }
  destruct only_basis; [now apply ka_put_obj|].
  pose proof (set_frames_loop_aligned (f0 :: frs) (List.length (f0 :: frs))
                (List.length (bo_verts b0)) fs (seq 1 (List.length (f0 :: frs) - 1)) b0 Hb0 eq_refl)
    as [Ha _].
  destruct (set_frames_loop _ _ _ _ _ b0) as [b' err]. cbn [fst] in Ha.
  apply ka_bind; [now apply ka_put_obj|intros _].
  destruct err; [apply ka_raise|apply ka_ret].
Qed.

Lemma ka_get_frames (w : batom) : keeps_aligned (get_frames w).
Proof. apply ka_get_obj. intros b _. apply ka_lift. Qed.

Lemma ka_get_positions (w : batom) : keeps_aligned (get_positions w).
Proof. apply ka_get_obj. intros b _. apply ka_lift. Qed.

Lemma ka_set_elements (w : batom) (e : elements_arg) : keeps_aligned (set_elements w e).
Proof.
  unfold set_elements. apply ka_bind_lift. intros els _.
  apply ka_get_obj. intros b Hb.
  apply ka_bind; [apply ka_put_obj; exact Hb|intros _].
  apply ka_bind; [apply ka_build_material|intros _].
  apply ka_get_obj. intros b' _.
  apply ka_bind_scene. intros s Hs.
  destruct (py_dict_get (sc_objects s) (instancer_name w)) as [[| m |]|];
    cbn [snd put_scene raise]; try exact Hs.
  unfold scene_aligned. cbn [sc_objects]. now apply Forall_py_dict_set.
Qed.

Lemma ka_build_object (w : batom) (species label : string) (elements : pydict Q)
    (positions : list vec3) (loc : vec3) :
  keeps_aligned (build_object w species label elements positions loc).
Proof.
  unfold build_object. apply ka_bind_scene. intros s Hs.
  destruct (py_dict_get (sc_objects s) (obj_name w)) as [[| |]|];
    [exact Hs|exact Hs|exact Hs|].
  apply ka_put_obj; [constructor|exact Hs].
Qed.

Lemma ka_build_instancer (w : batom) (prim : mesh) : keeps_aligned (build_instancer w prim).
Proof.
  unfold build_instancer. apply ka_bind_scene. intros s Hs.
  refine (ka_bind _ _ _ _ s Hs); [|intros _].
  - intros st _. cbn [put_scene snd]. unfold scene_aligned. cbn [sc_objects].
    destruct (py_dict_get (sc_objects s) (instancer_name w)); [|exact Hs].
    now apply Forall_py_dict_del.
  - apply ka_get_obj. intros b _. apply ka_bind_scene. intros s' Hs'.
    cbn [put_scene snd]. unfold scene_aligned. cbn [sc_objects].
    now apply Forall_py_dict_set.
Qed.

Lemma ka_Batom_init (species : string) (positions : positions_arg) (loc : vec3)
    (elements : option elements_arg) (label : string)
    (materials : option (pydict (option string))) (prim : mesh) :
  keeps_aligned (Batom_init species positions loc elements label materials prim).
Proof.
  unfold Batom_init. destruct (String.eqb species "").
  - apply ka_bind_scene. intros s Hs.
    destruct (py_dict_get (sc_objects s) label) as [[| |]|]; exact Hs.
  - apply ka_bind; [apply ka_ret|intros _].
    apply ka_bind; [|intros fp].
    { destruct positions as [[|p0 ps]|[|f0 fs]]; first [apply ka_ret|apply ka_raise]. }
    apply ka_bind; [apply ka_lift|intros els].
    apply ka_bind; [apply ka_build_object|intros _].
    apply ka_bind; [apply ka_build_material|intros _].
    apply ka_bind; [apply ka_build_instancer|intros _].
    apply ka_bind; [apply ka_set_frames|intros _].
    apply ka_ret.
Qed.

Lemma ka_Batom_repeat (w : batom) (m : mult_arg) (cell : cell3) :
  keeps_aligned (Batom_repeat w m cell).
Proof.
  unfold Batom_repeat. cbv zeta.
  destruct (negb _); [apply ka_raise|].
  apply ka_get_obj. intros b _.
  apply ka_bind; [apply ka_get_frames|intros frames].
  apply ka_bind; [apply ka_get_positions|intros pos].
  apply ka_bind; [apply ka_lift|intros pos'].
  apply ka_bind; [apply ka_add_vertices|intros _].
  apply ka_get_obj. intros b' _.
  apply ka_bind; [destruct (Nat.ltb _ _); [apply ka_lift|apply ka_ret]|intros fnew].
  apply ka_set_frames.
Qed.

(** Every operation of [Batom] that changes the scene keeps each shape-key
    layer of each Batom object exactly as long as the object's vertex list,
    whether it returns or raises: [set_positions], [add_vertices],
    [delete], [set_frames], [set_elements], [repeat] and the constructor. *)
Theorem shape_keys_stay_aligned :
  (forall w p, keeps_aligned (set_positions w p)) /\
  (forall w ps, keeps_aligned (add_vertices w ps)) /\
  (forall w index, keeps_aligned (Batom_delete w index)) /\
  (forall w frames frame_start only_basis,
     keeps_aligned (set_frames w frames frame_start only_basis)) /\
  (forall w e, keeps_aligned (set_elements w e)) /\
  (forall w m cell, keeps_aligned (Batom_repeat w m cell)) /\
  (forall species positions loc elements label materials prim,
     keeps_aligned (Batom_init species positions loc elements label materials prim)).
Proof.
  split; [exact ka_set_positions|]. split; [exact ka_add_vertices|].
  split; [exact ka_Batom_delete|]. split; [exact ka_set_frames|].
  split; [exact ka_set_elements|]. split; [exact ka_Batom_repeat|].
  exact ka_Batom_init.
Qed.

(** ** [repeat] on the scene *)








(** ** [set_elements]: what is stored reads back through [get_elements] *)


Lemma build_material_run (label species : string) (colors : list string) (st : scene) :
  build_material label species colors None st =
    (Ok tt, mk_scene (sc_objects st)
              (fold_left (fun acc ele =>
                 let name := material_name label species ele in
                 if existsb (String.eqb name) acc then acc else acc ++ [name])
                 colors (sc_materials st))).
Proof. reflexivity. Qed.






(** ** The constructor on a fresh name *)

Lemma atom_instancer_names_differ (label species : string) :
  (label ++ "_instancer_atom_" ++ species)%string <> (label ++ "_atom_" ++ species)%string.
Proof.
  induction label as [|c label IH]; cbn [append]; [discriminate|].
  intros H. injection H as H. exact (IH H).
Qed.

Lemma build_object_run_fresh (w : batom) (species label : string) (elements : pydict Q)
    (positions : list vec3) (loc : vec3) (st : scene)
    (Hfresh : py_dict_get (sc_objects st) (obj_name w) = None) :
  build_object w species label elements positions loc st =
    (Ok tt, mk_scene (py_dict_set (sc_objects st) (obj_name w)
               (SBatom (mk_batom_obj species label
                          (map (fun kv => store_eledata (fst kv) (snd kv)) elements)
                          (map round32v positions)
                          (mk_affine (1%Q, 0%Q, 0%Q) (0%Q, 1%Q, 0%Q) (0%Q, 0%Q, 1%Q) (round32v loc))
                          [] [])))
             (sc_materials st)).
Proof. unfold build_object. rewrite bind_run. cbn [get_scene]. now rewrite Hfresh. Qed.

Lemma build_instancer_run (w : batom) (prim : mesh) (st : scene) (b : batom_obj)
    (Hobj : py_dict_get (sc_objects st) (obj_name w) = Some (SBatom b))
    (Hne : instancer_name w <> obj_name w) :
  let objs := match py_dict_get (sc_objects st) (instancer_name w) with
              | Some _ => py_dict_del (sc_objects st) (instancer_name w)
              | None => sc_objects st
              end in
  build_instancer w prim st =
    (Ok tt, mk_scene (py_dict_set objs (instancer_name w)
                        (SInstancer (assign_materials (get_elements (bo_elements b)) prim)))
              (sc_materials st)).
Proof.
  cbv zeta. unfold build_instancer. rewrite bind_run. cbn [get_scene].
  set (objs := match py_dict_get (sc_objects st) (instancer_name w) with
               | Some _ => py_dict_del (sc_objects st) (instancer_name w)
               | None => sc_objects st
               end).
  assert (Hobj' : py_dict_get objs (obj_name w) = Some (SBatom b)).
  { unfold objs. destruct (py_dict_get (sc_objects st) (instancer_name w)); [|exact Hobj].
    rewrite py_dict_get_del_neq; [exact Hobj|]. intros H. apply Hne. now symmetry. }
  rewrite bind_run. cbn [put_scene]. rewrite bind_run, get_obj_run. cbn [sc_objects].
  rewrite Hobj'. reflexivity.
Qed.

Lemma set_frames_basis_run (w : batom) (frames : list (list vec3)) (st : scene) (b : batom_obj)
    (Hobj : py_dict_get (sc_objects st) (obj_name w) = Some (SBatom b))
    (Hf : frames <> []) :
  set_frames w frames 0 true st =
    (Ok tt, mk_scene (py_dict_set (sc_objects st) (obj_name w)
               (SBatom (if has_key b ("Basis_" ++ bo_species b)%string then b
                        else shape_key_add b ("Basis_" ++ bo_species b)%string)))
             (sc_materials st)).
Proof.
  unfold set_frames. destruct frames as [|f0 fs]; [contradiction|].
  rewrite bind_run, get_obj_run, Hobj. reflexivity.
Qed.

Lemma build_material_fold_incl (label species : string) (colors acc : list string) (x : string) :
  In x acc ->
  In x (fold_left (fun acc ele =>
          let name := material_name label species ele in
          if existsb (String.eqb name) acc then acc else acc ++ [name]) colors acc).
Proof.
  revert acc; induction colors as [|c colors IH]; intros acc Hx; cbn [fold_left]; [exact Hx|].
  apply IH. cbv zeta. destruct (existsb _ acc); [exact Hx|]. apply in_or_app. now left.
Qed.

(** The constructor [Batom(species, positions, location, elements, label)],
    without a [materials] argument, for a non-empty species whose object name [label_atom_species] is not
    in use, with non-empty positions and an [elements] argument (or the
    default [species.split('_')[0]]) that passes [check_elements]: it
    returns the wrapper of [label_atom_species] and
    [label_instancer_atom_species]; the object holds the species, the label,
    the checked elements, the (first frame's) positions in single
    precision, an identity placement translated to [location], and one
    shape key, the basis, equal to those positions, and no keyframes; the
    instancer holds the fresh primitive with its face materials assigned
    from the elements (every earlier face index reset).
    No other object of the scene changes, and no material is removed. *)
Theorem Batom_init_fresh (species : string) (positions : positions_arg) (loc : vec3)
    (elements : option elements_arg) (label : string) (prim : mesh)
    (e : elements_arg) (d : pydict Q) (st : scene)
    (Hsp : species <> ""%string)
    (Hwf : positions_wf positions)
    (Hfresh : py_dict_get (sc_objects st) (label ++ "_atom_" ++ species)%string = None)
    (He : (if elements_truthy elements then elements else Some (EStr (split_prefix species))) = Some e)
    (Hc : check_elements e = Ok d) :
  let w := mk_batom (label ++ "_atom_" ++ species)%string
                    (label ++ "_instancer_atom_" ++ species)%string in
  let p0 := match positions with P2 l => l | P3 f => hd [] f end in
  let b := mk_batom_obj species label (map (fun kv => store_eledata (fst kv) (snd kv)) d)
             (map round32v p0)
             (mk_affine (1%Q, 0%Q, 0%Q) (0%Q, 1%Q, 0%Q) (0%Q, 0%Q, 1%Q) (round32v loc))
             [(("Basis_" ++ species)%string, map round32v p0)] [] in
  exists st',
    Batom_init species positions loc elements label None prim st = (Ok w, st') /\
    py_dict_get (sc_objects st') (obj_name w) = Some (SBatom b) /\
    py_dict_get (sc_objects st') (instancer_name w) =
      Some (SInstancer (assign_materials (get_elements (bo_elements b)) prim)) /\
    (forall k, k <> obj_name w -> k <> instancer_name w ->
       py_dict_get (sc_objects st') k = py_dict_get (sc_objects st) k) /\
    (forall x, In x (sc_materials st) -> In x (sc_materials st')).
Proof.
  cbv zeta.
  set (on := (label ++ "_atom_" ++ species)%string) in *.
  set (iname := (label ++ "_instancer_atom_" ++ species)%string).
  assert (Hne : iname <> on) by apply atom_instancer_names_differ.
  set (w := mk_batom on iname).
  assert (Hpos : exists frs, frs <> [] /\
    (match positions with
     | P2 [] | P3 [] => raise (Exception_ "Shape of positions is wrong!")
     | P2 l => ret ([l], l)
     | P3 ((f0 :: _) as f) => ret (f, f0)
     end : M (list (list vec3) * list vec3)) = ret (frs, match positions with P2 l => l | P3 f => hd [] f end)).
  { destruct positions as [l|f].
    - destruct l as [|x xs]; [exfalso; now apply Hwf|].
      exists [x :: xs]. split; [discriminate|reflexivity].
    - destruct f as [|x xs]; [exfalso; now apply Hwf|].
      exists (x :: xs). split; [discriminate|reflexivity]. }
  destruct Hpos as [frs [Hfrs Hpos]].
  set (p0 := match positions with P2 l => l | P3 f => hd [] f end) in *.
  unfold Batom_init. rewrite (proj2 (String.eqb_neq _ _) Hsp). fold on iname w.
  rewrite bind_run. unfold BaseObject_init. cbn [ret]. cbv beta iota.
  rewrite bind_run, Hpos. cbn [ret]. cbv beta iota.
  rewrite He. cbn [lift]. rewrite bind_run, Hc. cbn [lift ret]. cbv beta iota.
  cbn [fst snd].
  rewrite bind_run, (build_object_run_fresh w species label d p0 loc st Hfresh). cbv beta iota.
  rewrite bind_run, build_material_run. cbv beta iota. cbn [sc_objects sc_materials].
  set (b0 := mk_batom_obj species label (map (fun kv => store_eledata (fst kv) (snd kv)) d)
               (map round32v p0)
               (mk_affine (1%Q, 0%Q, 0%Q) (0%Q, 1%Q, 0%Q) (0%Q, 0%Q, 1%Q) (round32v loc)) [] []).
  set (objs1 := py_dict_set (sc_objects st) (obj_name w) (SBatom b0)).
  set (mats1 := fold_left _ (species_data_colors d) (sc_materials st)).
  assert (Hne' : instancer_name w <> obj_name w) by exact Hne.
  assert (Hon : obj_name w <> instancer_name w) by (intros H; apply Hne; symmetry; exact H).
  rewrite bind_run, (build_instancer_run w prim (mk_scene objs1 mats1) b0
                       (py_dict_get_set_eq _ _ _) Hne').
  cbv beta iota zeta. cbn [sc_objects sc_materials].
  set (objs2 := match py_dict_get objs1 (instancer_name w) with
                | Some _ => py_dict_del objs1 (instancer_name w)
                | None => objs1
                end).
  assert (H2 : forall k, k <> instancer_name w -> py_dict_get objs2 k = py_dict_get objs1 k).
  { intros k Hk. unfold objs2. destruct (py_dict_get objs1 (instancer_name w)); [|reflexivity].
    now apply py_dict_get_del_neq. }
  rewrite bind_run, (set_frames_basis_run w frs _ b0); [|cbn [sc_objects];
    rewrite (py_dict_get_set_neq _ _ _ _ Hon), (H2 _ Hon); apply py_dict_get_set_eq|exact Hfrs].
  cbv beta iota. cbn [ret sc_objects sc_materials bo_species].
  replace (has_key b0 ("Basis_" ++ species)%string) with false by reflexivity.
  eexists. split; [reflexivity|]. cbn [sc_objects sc_materials].
  split; [apply py_dict_get_set_eq|]. split.
  { rewrite (py_dict_get_set_neq _ _ _ _ Hne'). apply py_dict_get_set_eq. }
  split; [|intros x Hx; exact (build_material_fold_incl label species _ _ x Hx)].
  intros k Hk1 Hk2.
  rewrite (py_dict_get_set_neq _ _ _ _ Hk1), (py_dict_get_set_neq _ _ _ _ Hk2), (H2 k Hk2).
  unfold objs1. now apply py_dict_get_set_neq.
Qed.

Lemma Batom_init_fresh_witness :
  exists st', Batom_init "C" (P2 [vzero]) vzero None "batoms" None prim_empty scene0 = (Ok w_C, st').
Proof.
  destruct (Batom_init_fresh "C" (P2 [vzero]) vzero None "batoms" prim_empty
              (EStr "C") [("C"%string, 1%Q)] scene0) as [st' [H _]].
  - discriminate.
  - discriminate.
  - reflexivity.
  - reflexivity.
  - reflexivity.
  - exists st'. exact H.
Defined.

(** ** [set_frames]: where each frame goes *)


























Lemma filter_none {A} (f : A -> bool) (l : list A) :
  (forall x, In x l -> f x = false) -> filter f l = [].
Proof.
  induction l as [|x l IH]; intros H; [reflexivity|]. cbn [filter].
  rewrite (H x (or_introl eq_refl)). apply IH. intros y Hy. apply H. now right.
Qed.

(** ** [delete] of every site when the instancer is missing *)

(** Deleting every site of a species whose instancer object is missing:
    [bpy.data.objects.remove(self.instancer)] gets [None] and raises
    [TypeError] before anything is removed or written; the scene is
    unchanged (in particular the object keeps all its sites). *)
Theorem delete_all_without_instancer (w : batom) (st : scene) (b : batom_obj) (idx : list Z)
    (sel : list nat)
    (Hne : idx <> [])
    (Hobj : py_dict_get (sc_objects st) (obj_name w) = Some (SBatom b))
    (Hsel : bm_indices (List.length (bo_verts b)) idx = Ok sel)
    (Hall : forall k, (k < List.length (bo_verts b))%nat -> In k sel)
    (Hinst : py_dict_get (sc_objects st) (instancer_name w) = None) :
  Batom_delete w (ISeq (map VInt idx)) st = (Err TypeError, st).
Proof.
  rewrite (Batom_delete_ints w idx Hne).
  assert (Hr : drop_indices sel (bo_verts b) = []).
  { rewrite (drop_indices_nth sel (bo_verts b) vzero).
    replace (filter _ _) with (@nil nat); [reflexivity|].
    symmetry. apply filter_none. intros x Hx. apply in_seq in Hx.
    apply negb_false_iff, existsb_exists. exists x. split; [apply Hall; lia|apply Nat.eqb_refl]. }
  unfold delete_verts. rewrite bind_run, get_obj_run, Hobj. cbv beta iota.
  rewrite bind_run, Hsel. cbn [lift ret]. cbv beta iota zeta. rewrite Hr.
  unfold remove_object. rewrite !bind_run. cbn [get_scene]. rewrite Hinst. reflexivity.
Qed.

Lemma delete_all_without_instancer_witness :
  exists b, py_dict_get (sc_objects scene_C2) (obj_name w_C) = Some (SBatom b) /\
    Batom_delete w_C (ISeq [VInt 0; VInt 1]) (mk_scene (py_dict_del (sc_objects scene_C2) (instancer_name w_C))
                                                       (sc_materials scene_C2)) =
    (Err TypeError, mk_scene (py_dict_del (sc_objects scene_C2) (instancer_name w_C))
                      (sc_materials scene_C2)).
Proof.
  eexists. split; [reflexivity|].
  refine (delete_all_without_instancer w_C _ _ [0%Z; 1%Z] [0%nat; 1%nat] _ _ _ _ _).
  - discriminate.
  - reflexivity.
  - reflexivity.
  - intros k Hk. cbn in Hk. cbn. lia.
  - reflexivity.
Defined.
